(** * Meme creator studio: the layer store and the canvas surface

    A shallow embedding of the editor state machine of
    [hooks/useMemeEditor.js] (the reducer [memeEditorReducer]), of the
    press handler of [components/CanvasEditor.js] ([handleMouseDown]) and
    of the render/share payload built by [RightPanel] ([generatePreview],
    [handleShare]), followed by the properties of the specification that
    are stated about them.

    Conventions of the embedding.
    - JavaScript numbers that the code uses as layer ids, counters and
      pixel coordinates are integers ([Z]); every value the code computes
      on them ([+ 1], [x + width], comparisons) is exact on integers in
      the safe range of a double.
    - [undefined] in an array slot is [None]; dereferencing it
      ([layer.id] on [undefined]) throws, which is the [TypeError] outcome
      of the [result] monad.
    - [null] for [baseImage] and [selectedLayerId] is [None]. *)

From stdpp Require Import gmap strings list fin_maps pretty.
From Stdlib Require Import ZArith Lia.

Local Open Scope string_scope.
Local Open Scope list_scope.
Local Open Scope Z_scope.

(** ** Outcomes of JavaScript code: a value, or a thrown [TypeError] *)

Inductive result (A : Type) : Type :=
  | Ok (a : A)
  | TypeError.
Arguments Ok {A} a.
Arguments TypeError {A}.

(** Sequencing, written [x ← r; k] with stdpp's notation: a throw in [r]
    skips [k]. *)
#[global] Instance result_bind : MBind result := fun A B k r =>
  match r with
  | Ok a => k a
  | TypeError => TypeError
  end.

(** ** Text layers *)

Module Layer.

(** The object literal built by [ADD_TEXT_LAYER]. *)
Record t : Type := mk {
  id : Z;
  text : string;
  x : Z;
  y : Z;
  fontSize : Z;
  fontFamily : string;
  color : string;
  strokeColor : string;
  strokeWidth : Z;
  textAlign : string;
  rotation : Z;
  width : Z;
  height : Z
}.

(** The [updates] object of [UPDATE_TEXT_LAYER]: any subset of the
    fields of a layer ([None]: the key is absent). *)
Record updates : Type := mkUpdates {
  u_id : option Z;
  u_text : option string;
  u_x : option Z;
  u_y : option Z;
  u_fontSize : option Z;
  u_fontFamily : option string;
  u_color : option string;
  u_strokeColor : option string;
  u_strokeWidth : option Z;
  u_textAlign : option string;
  u_rotation : option Z;
  u_width : option Z;
  u_height : option Z
}.

(** [{}] *)
Definition no_updates : updates :=
  mkUpdates None None None None None None None None None None None None None.

(** [{ ...layer, ...updates }]: a key of [updates] overrides the
    layer's, every other key keeps the layer's value. *)
Definition spread (layer : t) (u : updates) : t :=
  {| id := default (id layer) (u_id u);
     text := default (text layer) (u_text u);
     x := default (x layer) (u_x u);
     y := default (y layer) (u_y u);
     fontSize := default (fontSize layer) (u_fontSize u);
     fontFamily := default (fontFamily layer) (u_fontFamily u);
     color := default (color layer) (u_color u);
     strokeColor := default (strokeColor layer) (u_strokeColor u);
     strokeWidth := default (strokeWidth layer) (u_strokeWidth u);
     textAlign := default (textAlign layer) (u_textAlign u);
     rotation := default (rotation layer) (u_rotation u);
     width := default (width layer) (u_width u);
     height := default (height layer) (u_height u) |}.

(** What the spread guarantees, key by key: a key present in [updates]
    takes its value, an absent one keeps the layer's. *)
Definition merged_field {A : Type} (patch : option A) (new old : A) : Prop :=
  match patch with
  | Some v => new = v
  | None => new = old
  end.

Definition merged (u : updates) (layer' layer : t) : Prop :=
  merged_field (u_id u) (id layer') (id layer)
  ∧ merged_field (u_text u) (text layer') (text layer)
  ∧ merged_field (u_x u) (x layer') (x layer)
  ∧ merged_field (u_y u) (y layer') (y layer)
  ∧ merged_field (u_fontSize u) (fontSize layer') (fontSize layer)
  ∧ merged_field (u_fontFamily u) (fontFamily layer') (fontFamily layer)
  ∧ merged_field (u_color u) (color layer') (color layer)
  ∧ merged_field (u_strokeColor u) (strokeColor layer') (strokeColor layer)
  ∧ merged_field (u_strokeWidth u) (strokeWidth layer') (strokeWidth layer)
  ∧ merged_field (u_textAlign u) (textAlign layer') (textAlign layer)
  ∧ merged_field (u_rotation u) (rotation layer') (rotation layer)
  ∧ merged_field (u_width u) (width layer') (width layer)
  ∧ merged_field (u_height u) (height layer') (height layer).

End Layer.

(** A slot of the layer array: a layer, or [undefined]. *)
Abbreviation slot := (option Layer.t).

(** [v.id], [v.x], ...: reading a property of [undefined] throws. *)
Definition deref (v : slot) : result Layer.t :=
  match v with
  | Some layer => Ok layer
  | None => TypeError
  end.

(** ** JavaScript arrays of layers

    An array has its indexed elements and, like every object, may carry
    own properties whose key is not an array index; the only such keys
    the code can write are negative integers ([newLayers[upIndex]] with
    [upIndex = -1]). *)

Module Arr.

Record t : Type := mk {
  elems : list slot;
  props : gmap Z slot
}.

(** [[]] *)
Definition empty : t := mk [] ∅.

(** [[...a]] and [[...a, v]]: the iterator yields the indexed
    elements only. *)
Definition of_list (l : list slot) : t := mk l ∅.

(** The array whose elements are the layers [ls], in that order, and
    nothing else: the arrays of the data model. *)
Definition of_layers (ls : list Layer.t) : t := of_list (Some <$> ls).

(** [a.length] *)
Definition length (a : t) : Z := Z.of_nat (List.length (elems a)).

(** [a[k]]: [undefined] when nothing is stored under [k]. *)
Definition get (a : t) (k : Z) : slot :=
  if 0 <=? k then mjoin (elems a !! Z.to_nat k) else mjoin (props a !! k).

(** [a[k] = v]. Inside the bounds the element is replaced; at or past
    the length the array grows (the new slots in between read as
    [undefined]); a negative [k] is an ordinary property. *)
Definition set (a : t) (k : Z) (v : slot) : t :=
  if 0 <=? k then
    if k <? length a then mk (<[Z.to_nat k := v]> (elems a)) (props a)
    else mk (elems a ++ replicate (Z.to_nat k - List.length (elems a)) None ++ [v])
            (props a)
  else mk (elems a) (<[k := v]> (props a)).

(** [a.map(f)]: a new array; the callback sees every element. *)
Fixpoint map_elems {B : Type} (f : slot -> result B) (l : list slot) : result (list B) :=
  match l with
  | [] => Ok []
  | v :: rest =>
      w ← f v;
      rest' ← map_elems f rest;
      Ok (w :: rest')
  end.

Definition map (f : slot -> result slot) (a : t) : result t :=
  l ← map_elems f (elems a); Ok (of_list l).

(** [a.filter(p)]: a new array of the elements the callback accepts. *)
Fixpoint filter_elems (p : slot -> result bool) (l : list slot) : result (list slot) :=
  match l with
  | [] => Ok []
  | v :: rest =>
      b ← p v;
      rest' ← filter_elems p rest;
      Ok (if (b : bool) then v :: rest' else rest')
  end.

Definition filter (p : slot -> result bool) (a : t) : result t :=
  l ← filter_elems p (elems a); Ok (of_list l).

(** [a.findIndex(p)]: the first index the callback accepts, [-1] when
    there is none; the callback is not called past a match. *)
Fixpoint findIndex_from (p : slot -> result bool) (l : list slot) (i : Z) : result Z :=
  match l with
  | [] => Ok (-1)
  | v :: rest =>
      b ← p v;
      if (b : bool) then Ok i else findIndex_from p rest (i + 1)
  end.

Definition findIndex (p : slot -> result bool) (a : t) : result Z :=
  findIndex_from p (elems a) 0.

(** [a.find(p)]: the first element the callback accepts, [undefined]
    when there is none. *)
Fixpoint find_elems (p : slot -> result bool) (l : list slot) : result slot :=
  match l with
  | [] => Ok None
  | v :: rest =>
      b ← p v;
      if (b : bool) then Ok v else find_elems p rest
  end.

Definition find (p : slot -> result bool) (a : t) : result slot :=
  find_elems p (elems a).

End Arr.

(** ** The editor state and its transitions *)

Record EditorState : Type := mkState {
  baseImage : option string;
  textLayers : Arr.t;
  selectedLayerId : option Z;
  nextLayerId : Z
}.

Definition initialState : EditorState :=
  {| baseImage := None;
     textLayers := Arr.empty;
     selectedLayerId := None;
     nextLayerId := 1 |}.

(** The actions the dispatch wrappers of [useMemeEditor] build, and
    [OTHER] for an action whose [type] is none of [ACTION_TYPES]. *)
Inductive Action : Type :=
  | SET_BASE_IMAGE (payload : option string)
  | ADD_TEXT_LAYER
  | UPDATE_TEXT_LAYER (id : Z) (updates : Layer.updates)
  | DELETE_TEXT_LAYER (payload : Z)
  | SELECT_LAYER (payload : option Z)
  | MOVE_LAYER_UP (payload : Z)
  | MOVE_LAYER_DOWN (payload : Z)
  | RESET
  | OTHER (type : string).

(** [l => l.id === payload] *)
Definition has_id (payload : Z) (v : slot) : result bool :=
  l ← deref v; Ok (Layer.id l =? payload).

(** [layer => layer.id !== payload] *)
Definition has_other_id (payload : Z) (v : slot) : result bool :=
  layer ← deref v; Ok (negb (Layer.id layer =? payload)).

(** [layer => layer.id === id ? { ...layer, ...updates } : layer] *)
Definition update_if (id : Z) (updates : Layer.updates) (v : slot) : result slot :=
  layer ← deref v;
  Ok (Some (if Layer.id layer =? id then Layer.spread layer updates else layer)).

(** [v?.id || null]: [undefined] and the falsy number [0] both give
    [null]. *)
Definition id_or_null (v : slot) : option Z :=
  match v with
  | Some layer => if Layer.id layer =? 0 then None else Some (Layer.id layer)
  | None => None
  end.

(** [state.selectedLayerId === payload] *)
Definition selected_is (sel : option Z) (payload : Z) : bool :=
  match sel with
  | Some i => i =? payload
  | None => false
  end.

(** The layer [ADD_TEXT_LAYER] creates. *)
Definition newLayer (state : EditorState) : Layer.t :=
  {| Layer.id := nextLayerId state;
     Layer.text := "Double click to edit";
     Layer.x := 50;
     Layer.y := 50;
     Layer.fontSize := 48;
     Layer.fontFamily := "Impact, Arial Black, sans-serif";
     Layer.color := "#FFFFFF";
     Layer.strokeColor := "#000000";
     Layer.strokeWidth := 2;
     Layer.textAlign := "center";
     Layer.rotation := 0;
     Layer.width := 300;
     Layer.height := 60 |}.

(** [[a[i], a[j]] = [a[j], a[i]]]: the right-hand side is read first,
    then [a[i]] and [a[j]] are assigned in that order. *)
Definition swap (a : Arr.t) (i j : Z) : Arr.t :=
  let vj := Arr.get a j in
  let vi := Arr.get a i in
  Arr.set (Arr.set a i vj) j vi.

Definition with_layers (state : EditorState) (a : Arr.t) : EditorState :=
  {| baseImage := baseImage state;
     textLayers := a;
     selectedLayerId := selectedLayerId state;
     nextLayerId := nextLayerId state |}.

Definition memeEditorReducer (state : EditorState) (action : Action)
  : result EditorState :=
  match action with
  | SET_BASE_IMAGE payload =>
      Ok {| baseImage := payload;
            textLayers := Arr.empty;
            selectedLayerId := None;
            nextLayerId := nextLayerId state |}
  | ADD_TEXT_LAYER =>
      let newLayer := newLayer state in
      Ok {| baseImage := baseImage state;
            textLayers := Arr.of_list (Arr.elems (textLayers state) ++ [Some newLayer]);
            selectedLayerId := Some (Layer.id newLayer);
            nextLayerId := nextLayerId state + 1 |}
  | UPDATE_TEXT_LAYER id updates =>
      layers ← Arr.map (update_if id updates) (textLayers state);
      Ok (with_layers state layers)
  | DELETE_TEXT_LAYER payload =>
      remainingLayers ← Arr.filter (has_other_id payload) (textLayers state);
      Ok {| baseImage := baseImage state;
            textLayers := remainingLayers;
            selectedLayerId :=
              if selected_is (selectedLayerId state) payload
              then id_or_null (Arr.get remainingLayers 0)
              else selectedLayerId state;
            nextLayerId := nextLayerId state |}
  | SELECT_LAYER payload =>
      Ok {| baseImage := baseImage state;
            textLayers := textLayers state;
            selectedLayerId := payload;
            nextLayerId := nextLayerId state |}
  | MOVE_LAYER_UP payload =>
      upIndex ← Arr.findIndex (has_id payload) (textLayers state);
      if upIndex <? Arr.length (textLayers state) - 1 then
        let newLayers := Arr.of_list (Arr.elems (textLayers state)) in
        Ok (with_layers state (swap newLayers upIndex (upIndex + 1)))
      else Ok state
  | MOVE_LAYER_DOWN payload =>
      downIndex ← Arr.findIndex (has_id payload) (textLayers state);
      if 0 <? downIndex then
        let newLayers := Arr.of_list (Arr.elems (textLayers state)) in
        Ok (with_layers state (swap newLayers downIndex (downIndex - 1)))
      else Ok state
  | RESET => Ok initialState
  | OTHER _ => Ok state
  end.

(** A sequence of dispatches: each action is reduced on the state the
    previous one returned; a throw ends the run. *)
Fixpoint run (state : EditorState) (actions : list Action) : result EditorState :=
  match actions with
  | [] => Ok state
  | action :: rest =>
      state' ← memeEditorReducer state action;
      run state' rest
  end.

(** The states of the data model: an ordered sequence of layers, a base
    image, a selection and the id counter. *)
Definition state_of (b : option string) (ls : list Layer.t) (sel : option Z) (n : Z)
  : EditorState :=
  {| baseImage := b;
     textLayers := Arr.of_layers ls;
     selectedLayerId := sel;
     nextLayerId := n |}.

(** The ids of a sequence of layers, in order. *)
Definition ids (ls : list Layer.t) : list Z := Layer.id <$> ls.

(** [selectedLayerId] is [null] or the id of a layer of the array. *)
Definition selection_consistent (state : EditorState) : Prop :=
  match selectedLayerId state with
  | None => True
  | Some i => ∃ layer, Some layer ∈ Arr.elems (textLayers state) ∧ Layer.id layer = i
  end.

Definition is_add_or_delete (action : Action) : Prop :=
  match action with
  | ADD_TEXT_LAYER | DELETE_TEXT_LAYER _ => True
  | _ => False
  end.

Definition is_reset (action : Action) : bool :=
  match action with
  | RESET => true
  | _ => false
  end.

(** [RESET] does not occur among the actions. *)
Definition no_reset (actions : list Action) : bool :=
  forallb (fun action => negb (is_reset action)) actions.

(** ** Patches and states used in the statements *)

(** [{ fontSize: v }] *)
Definition only_fontSize (v : Z) : Layer.updates :=
  Layer.mkUpdates None None None None (Some v) None None None None None None None None.

(** [{ id: i }] *)
Definition only_id (i : Z) : Layer.updates :=
  Layer.mkUpdates (Some i) None None None None None None None None None None None None.

(** All the fields of a layer but [fontSize] are those of another. *)
Definition same_but_fontSize (layer' layer : Layer.t) : Prop :=
  Layer.id layer' = Layer.id layer
  ∧ Layer.text layer' = Layer.text layer
  ∧ Layer.x layer' = Layer.x layer
  ∧ Layer.y layer' = Layer.y layer
  ∧ Layer.fontFamily layer' = Layer.fontFamily layer
  ∧ Layer.color layer' = Layer.color layer
  ∧ Layer.strokeColor layer' = Layer.strokeColor layer
  ∧ Layer.strokeWidth layer' = Layer.strokeWidth layer
  ∧ Layer.textAlign layer' = Layer.textAlign layer
  ∧ Layer.rotation layer' = Layer.rotation layer
  ∧ Layer.width layer' = Layer.width layer
  ∧ Layer.height layer' = Layer.height layer.

(** The editor after [SET_BASE_IMAGE "img1"] and one [ADD_TEXT_LAYER]. *)
Definition layer1 : Layer.t := newLayer initialState.
Definition one_layer : EditorState := state_of (Some "img1") [layer1] (Some 1) 2.

(** The editor with the layers 1 and 0, layer 1 selected: two layers
    added, the second given id 0 by an update, the first selected. *)
Definition layer0 : Layer.t :=
  Layer.spread (newLayer (state_of None [] None 2)) (only_id 0).

(** ** The canvas surface: pointer presses *)

Module Canvas.

Record MouseEvent : Type := { clientX : Z; clientY : Z }.

(** [canvasRef.current.getBoundingClientRect()] *)
Record DOMRect : Type := { left : Z; top : Z }.

(** The component's own state ([useState]). *)
Record Local : Type := mkLocal {
  dragging : option Z;
  resizing : option Z;
  dragStart : Z * Z;
  editingLayer : option Z
}.

(** The hook's state together with the component's. *)
Record App : Type := mkApp {
  editor : EditorState;
  local : Local
}.

(** The test of [handleMouseDown] on one layer. *)
Definition inside (layer : Layer.t) (x y : Z) : bool :=
  (x >=? Layer.x layer) && (x <=? Layer.x layer + Layer.width layer) &&
  (y >=? Layer.y layer) && (y <=? Layer.y layer + Layer.height layer).

(** [for (let i = textLayers.length - 1; i >= 0; i--)]: [n] is [i + 1],
    the number of indices still to visit; the result is the layer at
    which the loop breaks, if it does. *)
Fixpoint hit_loop (textLayers : Arr.t) (x y : Z) (n : nat) : result (option Layer.t) :=
  match n with
  | O => Ok None
  | S i =>
      layer ← deref (Arr.get textLayers (Z.of_nat i));
      if inside layer x y then Ok (Some layer)
      else hit_loop textLayers x y i
  end.

Definition hit_test (textLayers : Arr.t) (x y : Z) : result (option Layer.t) :=
  hit_loop textLayers x y (length (Arr.elems textLayers)).

(** [onSelectLayer] is the hook's [selectLayer]. *)
Definition handleMouseDown (rect : DOMRect) (e : MouseEvent) (app : App) : result App :=
  let x := clientX e - left rect in
  let y := clientY e - top rect in
  hit ← hit_test (textLayers (editor app)) x y;
  match hit with
  | Some layer =>
      editor' ← memeEditorReducer (editor app) (SELECT_LAYER (Some (Layer.id layer)));
      Ok {| editor := editor';
            local := {| dragging := Some (Layer.id layer);
                        resizing := resizing (local app);
                        dragStart := (x - Layer.x layer, y - Layer.y layer);
                        editingLayer := editingLayer (local app) |} |}
  | None => Ok app
  end.

(** Following the specification's words: the layers are walked from the
    topmost (the end of the sequence) to the bottommost, and the first
    one whose axis-aligned box [[x, x+width] × [y, y+height]] contains
    the point is the hit. *)
Definition box_contains (layer : Layer.t) (px py : Z) : Prop :=
  Layer.x layer ≤ px ≤ Layer.x layer + Layer.width layer ∧
  Layer.y layer ≤ py ≤ Layer.y layer + Layer.height layer.

#[global] Instance box_contains_dec layer px py : Decision (box_contains layer px py) :=
  ltac:(unfold box_contains; apply _).

Definition hit_spec (ls : list Layer.t) (px py : Z) : option Layer.t :=
  List.find (fun layer => bool_decide (box_contains layer px py)) (rev ls).

Definition with_rotation (r : Z) (layer : Layer.t) : Layer.t :=
  Layer.spread layer
    (Layer.mkUpdates None None None None None None None None None None (Some r) None None).

(** [!v] for a layer id kept in the component's state: [null] and the
    number [0] are falsy. *)
Definition falsy_id (v : option Z) : bool :=
  match v with
  | None => true
  | Some i => i =? 0
  end.

(** [{ x: x, y: y }] and [{ text: newText }] *)
Definition position (x y : Z) : Layer.updates :=
  Layer.mkUpdates None None (Some x) (Some y) None None None None None None None None None.

Definition only_text (newText : string) : Layer.updates :=
  Layer.mkUpdates None (Some newText) None None None None None None None None None None None.

(** A callback prop bound to a dispatch wrapper of the hook. *)
Definition dispatch (app : App) (action : Action) : result App :=
  editor' ← memeEditorReducer (editor app) action;
  Ok {| editor := editor'; local := local app |}.

(** [onUpdateLayer] is the hook's [updateTextLayer]. *)
Definition handleMouseMove (rect : DOMRect) (e : MouseEvent) (app : App) : result App :=
  match dragging (local app) with
  | None => Ok app
  | Some id =>
      if id =? 0 then Ok app
      else
        let x := clientX e - left rect in
        let y := clientY e - top rect in
        dispatch app
          (UPDATE_TEXT_LAYER id
             (position (Z.max 0 (x - fst (dragStart (local app))))
                       (Z.max 0 (y - snd (dragStart (local app))))))
  end.

Definition handleMouseUp (app : App) : App :=
  {| editor := editor app;
     local := {| dragging := None;
                 resizing := None;
                 dragStart := dragStart (local app);
                 editingLayer := editingLayer (local app) |} |}.

(** The loop of [handleDoubleClick] is that of [handleMouseDown], with
    another body at the hit. *)
Definition handleDoubleClick (rect : DOMRect) (e : MouseEvent) (app : App) : result App :=
  let x := clientX e - left rect in
  let y := clientY e - top rect in
  hit ← hit_test (textLayers (editor app)) x y;
  match hit with
  | Some layer =>
      Ok {| editor := editor app;
            local := {| dragging := dragging (local app);
                        resizing := resizing (local app);
                        dragStart := dragStart (local app);
                        editingLayer := Some (Layer.id layer) |} |}
  | None => Ok app
  end.

Definition setEditingLayer (v : option Z) (app : App) : App :=
  {| editor := editor app;
     local := {| dragging := dragging (local app);
                 resizing := resizing (local app);
                 dragStart := dragStart (local app);
                 editingLayer := v |} |}.

Definition handleTextEdit (layerId : Z) (newText : string) (app : App) : result App :=
  app' ← dispatch app (UPDATE_TEXT_LAYER layerId (only_text newText));
  Ok (setEditingLayer None app').

(** [l => l.id === v], for [v] a layer id or [null]. *)
Definition has_id_of (v : option Z) (s : slot) : result bool :=
  l ← deref s; Ok (selected_is v (Layer.id l)).

(** The edit modal: shown while [editingLayer] is truthy, its input
    pre-filled with
    [textLayers.find((l) => l.id === editingLayer)?.text || ''], the
    empty string being written [EmptyString]. *)
Definition modal_shown (app : App) : bool := negb (falsy_id (editingLayer (local app))).

Definition modal_defaultValue (app : App) : result string :=
  found ← Arr.find (has_id_of (editingLayer (local app))) (textLayers (editor app));
  Ok (match found with
      | Some layer => Layer.text layer
      | None => EmptyString
      end).

End Canvas.

(** ** The render and share payloads *)

Module Payload.

Inductive JsValue : Type :=
  | JNum (n : Z)
  | JStr (s : string).

(** An object literal: its keys, in the order written, with their values. *)
Definition JsObject : Type := list (string * JsValue).

(** [layer => ({ text: layer.text, x: layer.x, ... })] *)
Definition layer_fields (layer : Layer.t) : JsObject :=
  [ ("text", JStr (Layer.text layer));
    ("x", JNum (Layer.x layer));
    ("y", JNum (Layer.y layer));
    ("fontSize", JNum (Layer.fontSize layer));
    ("fontFamily", JStr (Layer.fontFamily layer));
    ("color", JStr (Layer.color layer));
    ("strokeColor", JStr (Layer.strokeColor layer));
    ("strokeWidth", JNum (Layer.strokeWidth layer));
    ("textAlign", JStr (Layer.textAlign layer));
    ("rotation", JNum (Layer.rotation layer)) ].

Definition project (v : slot) : result JsObject :=
  layer ← deref v; Ok (layer_fields layer).

(** The argument of [renderMeme] and [shareMeme]. *)
Record MemeData : Type := mkMemeData {
  md_baseImage : option string;
  md_textLayers : list JsObject
}.

(** [!baseImage]: [null] and the empty string are falsy. *)
Definition falsy (baseImage : option string) : bool :=
  match baseImage with
  | None => true
  | Some s => bool_decide (s = EmptyString)
  end.

(** What a handler does with the backend. *)
Inductive Outcome : Type :=
  | NoCall                      (* [if (!baseImage) return;] *)
  | Caught                      (* a throw, caught: [setError(err.message)] *)
  | Call (memeData : MemeData). (* [renderMeme(...)] or [shareMeme(...)] *)

Definition outcome_of (r : result MemeData) : Outcome :=
  match r with
  | Ok memeData => Call memeData
  | TypeError => Caught
  end.

Definition generatePreview (baseImage : option string) (textLayers : Arr.t) : Outcome :=
  if falsy baseImage then NoCall
  else outcome_of (
    layers ← Arr.map_elems project (Arr.elems textLayers);
    Ok {| md_baseImage := baseImage; md_textLayers := layers |}).

Definition handleShare (baseImage : option string) (textLayers : Arr.t) : Outcome :=
  if falsy baseImage then NoCall
  else outcome_of (
    layers ← Arr.map_elems project (Arr.elems textLayers);
    Ok {| md_baseImage := baseImage; md_textLayers := layers |}).

(** [obj[key]] on an object literal. *)
Fixpoint field (obj : JsObject) (key : string) : option JsValue :=
  match obj with
  | [] => None
  | (k, v) :: rest => if bool_decide (k = key) then Some v else field rest key
  end.

End Payload.

(** ** Well-formed editors

    What the reducer keeps when it is driven with ids it handed out
    itself: every slot holds a layer, the ids are pairwise distinct, lie
    between 1 and the counter, and the selection is [null] or one of
    them. *)

Definition has_layer (a : Arr.t) (i : Z) : Prop :=
  ∃ layer, Some layer ∈ Arr.elems a ∧ Layer.id layer = i.

Definition editor_ok (state : EditorState) : Prop :=
  ∃ ls, textLayers state = Arr.of_layers ls
        ∧ NoDup (ids ls)
        ∧ Forall (fun i => 1 ≤ i < nextLayerId state) (ids ls)
        ∧ 1 ≤ nextLayerId state
        ∧ selection_consistent state.

(** The actions under which [editor_ok] is kept: a patch without an [id]
    key, a selection that is [null] or a present id, and [MOVE_LAYER_UP]
    on a present id. *)
Definition admissible (state : EditorState) (action : Action) : Prop :=
  match action with
  | UPDATE_TEXT_LAYER _ updates => Layer.u_id updates = None
  | SELECT_LAYER (Some i) => has_layer (textLayers state) i
  | MOVE_LAYER_UP i => has_layer (textLayers state) i
  | _ => True
  end.

(** ** The right panel's controls *)

Module RightPanel.

(** [textLayers.find((l) => l.id === selectedLayerId)] *)
Definition selectedLayer (textLayers : Arr.t) (selectedLayerId : option Z) : result slot :=
  Arr.find (Canvas.has_id_of selectedLayerId) textLayers.

(** The inputs of the text controls, each with the value its [onChange]
    or [onClick] reads ([parseInt] of a number input taken as an integer). *)
Inductive Control : Type :=
  | TextInput (value : string)
  | FontSizeInput (value : Z)
  | RotationInput (value : Z)
  | FontFamilySelect (value : string)
  | ColorInput (value : string)
  | StrokeColorInput (value : string)
  | StrokeWidthInput (value : Z)
  | TextAlignButton (align : string).

(** The second argument of [onUpdateLayer(selectedLayer.id, ...)]. *)
Definition control_updates (c : Control) : Layer.updates :=
  match c with
  | TextInput value =>
      Layer.mkUpdates None (Some value) None None None None None None None None None None None
  | FontSizeInput value =>
      Layer.mkUpdates None None None None (Some value) None None None None None None None None
  | RotationInput value =>
      Layer.mkUpdates None None None None None None None None None None (Some value) None None
  | FontFamilySelect value =>
      Layer.mkUpdates None None None None None (Some value) None None None None None None None
  | ColorInput value =>
      Layer.mkUpdates None None None None None None (Some value) None None None None None None
  | StrokeColorInput value =>
      Layer.mkUpdates None None None None None None None (Some value) None None None None None
  | StrokeWidthInput value =>
      Layer.mkUpdates None None None None None None None None (Some value) None None None None
  | TextAlignButton align =>
      Layer.mkUpdates None None None None None None None None None (Some align) None None None
  end.

End RightPanel.

(** ** The application: what its elements can dispatch

    [App] wires the hook to the panels. An event is a user action on an
    element; an element that is not rendered receives none, which is an
    event that leaves the state alone. *)

Module Ui.

Inductive Event : Type :=
  (* LeftPanel: [onSelectImage(template.url)], [onSelectImage(result.imageUrl)] *)
  | SelectImage (url : option string)
  (* TopNav: [onReset] *)
  | ClickReset
  (* CanvasEditor, rendered when [baseImage] is truthy *)
  | ClickAddText
  | MouseDown (rect : Canvas.DOMRect) (e : Canvas.MouseEvent)
  | MouseMove (rect : Canvas.DOMRect) (e : Canvas.MouseEvent)
  | MouseUp
  | MouseLeave
  | DoubleClick (rect : Canvas.DOMRect) (e : Canvas.MouseEvent)
  (* the edit modal, rendered when [editingLayer] is truthy *)
  | ModalEnter (value : string)
  | ModalSave (value : string)
  | ModalCancel
  (* RightPanel's text controls, rendered when [selectedLayer] is found *)
  | Change (c : RightPanel.Control)
  | ClickMoveUp
  | ClickMoveDown
  | ClickDelete.

Definition canvas_shown (app : Canvas.App) : bool :=
  negb (Payload.falsy (baseImage (Canvas.editor app))).

(** An event on the text controls: [k] gets [selectedLayer.id]. *)
Definition on_selected (app : Canvas.App) (k : Z -> Action) : result Canvas.App :=
  found ← RightPanel.selectedLayer (textLayers (Canvas.editor app))
             (selectedLayerId (Canvas.editor app));
  match found with
  | Some selectedLayer => Canvas.dispatch app (k (Layer.id selectedLayer))
  | None => Ok app
  end.

Definition on_modal (app : Canvas.App) (k : Z -> result Canvas.App) : result Canvas.App :=
  match Canvas.editingLayer (Canvas.local app) with
  | Some id => if id =? 0 then Ok app else k id
  | None => Ok app
  end.

Definition on_event (app : Canvas.App) (ev : Event) : result Canvas.App :=
  match ev with
  | SelectImage url => Canvas.dispatch app (SET_BASE_IMAGE url)
  | ClickReset => Canvas.dispatch app RESET
  | ClickAddText =>
      if canvas_shown app then Canvas.dispatch app ADD_TEXT_LAYER else Ok app
  | MouseDown rect e =>
      if canvas_shown app then Canvas.handleMouseDown rect e app else Ok app
  | MouseMove rect e =>
      if canvas_shown app then Canvas.handleMouseMove rect e app else Ok app
  | MouseUp | MouseLeave =>
      if canvas_shown app then Ok (Canvas.handleMouseUp app) else Ok app
  | DoubleClick rect e =>
      if canvas_shown app then Canvas.handleDoubleClick rect e app else Ok app
  | ModalEnter value | ModalSave value =>
      on_modal app (fun id => Canvas.handleTextEdit id value app)
  | ModalCancel =>
      on_modal app (fun _ => Ok (Canvas.setEditingLayer None app))
  | Change c =>
      on_selected app (fun id => UPDATE_TEXT_LAYER id (RightPanel.control_updates c))
  | ClickMoveUp => on_selected app MOVE_LAYER_UP
  | ClickMoveDown => on_selected app MOVE_LAYER_DOWN
  | ClickDelete => on_selected app DELETE_TEXT_LAYER
  end.

Fixpoint run_events (app : Canvas.App) (events : list Event) : result Canvas.App :=
  match events with
  | [] => Ok app
  | ev :: rest =>
      app' ← on_event app ev;
      run_events app' rest
  end.

(** Layers exist only over a base image. *)
Definition app_ok (app : Canvas.App) : Prop :=
  editor_ok (Canvas.editor app)
  ∧ (Arr.elems (textLayers (Canvas.editor app)) ≠ [] ->
     Payload.falsy (baseImage (Canvas.editor app)) = false).

End Ui.

(** ** Painting the layers

    The calls [drawTextLayer] makes on the 2D context, as the list of
    commands it issues. Coordinates are rationals ([x + width / 2] is a
    half-integer); the argument of [ctx.rotate], [rotation * Math.PI /
    180], is kept as the number of degrees it stands for. *)

Module Render.

Abbreviation Q := QArith_base.Q.

Inductive Cmd : Type :=
  | Save
  | Restore
  | Translate (dx dy : Q)
  | Rotate (degrees : Z)
  | Font (value : string)
  | FillStyle (value : string)
  | StrokeStyle (value : string)
  | LineWidth (value : Z)
  | TextAlign (value : string)
  | TextBaseline (value : string)
  | StrokeText (text : string) (x y : Q)
  | FillText (text : string) (x y : Q)
  | LineDash (segments : list Z)
  | StrokeRect (x y w h : Z).

(** [a + w / 2] *)
Definition middle (a w : Z) : Q :=
  QArith_base.Qplus (QArith_base.inject_Z a)
    (QArith_base.Qdiv (QArith_base.inject_Z w) (QArith_base.Qmake 2 1)).

(** The commands of one call, and whether it returned: on [undefined]
    the call has saved the context when reading [layer.x] throws. *)
Definition drawTextLayer (selectedLayerId : option Z) (v : slot)
  : list Cmd * result unit :=
  match v with
  | None => ([Save], TypeError)
  | Some layer =>
      let centerX := middle (Layer.x layer) (Layer.width layer) in
      let centerY := middle (Layer.y layer) (Layer.height layer) in
      let textX := middle (Layer.x layer) (Layer.width layer) in
      let textY := middle (Layer.y layer) (Layer.height layer) in
      ([Save;
        Translate centerX centerY;
        Rotate (Layer.rotation layer);
        Translate (QArith_base.Qopp centerX) (QArith_base.Qopp centerY);
        Font (pretty (Layer.fontSize layer) +:+ "px " +:+ Layer.fontFamily layer);
        FillStyle (Layer.color layer);
        StrokeStyle (Layer.strokeColor layer);
        LineWidth (Layer.strokeWidth layer);
        TextAlign (Layer.textAlign layer);
        TextBaseline "middle"]
       ++ (if Layer.strokeWidth layer >? 0
           then [StrokeText (Layer.text layer) textX textY] else [])
       ++ [FillText (Layer.text layer) textX textY]
       ++ (if selected_is selectedLayerId (Layer.id layer)
           then [StrokeStyle "#3b82f6";
                 LineWidth 2;
                 LineDash [5; 5];
                 StrokeRect (Layer.x layer) (Layer.y layer)
                   (Layer.width layer) (Layer.height layer);
                 LineDash []]
           else [])
       ++ [Restore],
       Ok ())
  end.

(** [textLayers.forEach((layer) => { drawTextLayer(ctx, layer); })]: a
    throw ends the loop. *)
Fixpoint forEach_draw (selectedLayerId : option Z) (l : list slot)
  : list Cmd * result unit :=
  match l with
  | [] => ([], Ok ())
  | v :: rest =>
      match drawTextLayer selectedLayerId v with
      | (cmds, Ok _) =>
          let '(cmds', r) := forEach_draw selectedLayerId rest in
          (cmds ++ cmds', r)
      | (cmds, TypeError) => (cmds, TypeError)
      end
  end.

Definition paint_layers (selectedLayerId : option Z) (textLayers : Arr.t)
  : list Cmd * result unit :=
  forEach_draw selectedLayerId (Arr.elems textLayers).

(** The context's drawing state as far as rotation goes: the angle in
    force and the stack of saved angles. [save] pushes, [restore] pops
    (and does nothing on an empty stack), [rotate] adds to the angle. *)
Definition Ctx : Type := (Z * list Z)%type.

Definition is_paint (c : Cmd) : bool :=
  match c with
  | StrokeText _ _ _ | FillText _ _ _ | StrokeRect _ _ _ _ => true
  | _ => false
  end.

Definition exec (ctx : Ctx) (c : Cmd) : Ctx :=
  match c with
  | Save => (fst ctx, fst ctx :: snd ctx)
  | Restore =>
      match snd ctx with
      | saved :: stack => (saved, stack)
      | [] => ctx
      end
  | Rotate degrees => (fst ctx + degrees, snd ctx)
  | _ => ctx
  end.

(** The painting commands of a run, each with the angle in force when it
    is issued, and the state the run ends in. *)
Fixpoint painted (ctx : Ctx) (cmds : list Cmd) : list (Z * Cmd) * Ctx :=
  match cmds with
  | [] => ([], ctx)
  | c :: rest =>
      let '(marks, ctx') := painted (exec ctx c) rest in
      (if is_paint c then (fst ctx, c) :: marks else marks, ctx')
  end.

(** What is painted for one layer. *)
Definition layer_paint (selectedLayerId : option Z) (layer : Layer.t) : list Cmd :=
  (if Layer.strokeWidth layer >? 0
   then [StrokeText (Layer.text layer)
           (middle (Layer.x layer) (Layer.width layer))
           (middle (Layer.y layer) (Layer.height layer))]
   else [])
  ++ [FillText (Layer.text layer)
        (middle (Layer.x layer) (Layer.width layer))
        (middle (Layer.y layer) (Layer.height layer))]
  ++ (if selected_is selectedLayerId (Layer.id layer)
      then [StrokeRect (Layer.x layer) (Layer.y layer)
              (Layer.width layer) (Layer.height layer)]
      else []).

End Render.


(** * Properties *)

Lemma bind_Ok {A B : Type} (a : A) (k : A -> result B) : (Ok a ≫= k) = k a.
Proof. reflexivity. Qed.

(** ** The array methods on the arrays of the data model *)

Section DenseArrays.

Implicit Types (ls pre post : list Layer.t) (p : Z).

Lemma map_elems_layers {B : Type} (g : Layer.t -> B) (f : slot -> result B) ls :
  (∀ layer, f (Some layer) = Ok (g layer)) ->
  Arr.map_elems f (Some <$> ls) = Ok (g <$> ls).
Proof.
  intros Hf. induction ls as [|layer ls IH]; [done|].
  cbn. rewrite Hf. cbn. rewrite IH. done.
Qed.

Lemma map_layers (g : Layer.t -> Layer.t) (f : slot -> result slot) ls :
  (∀ layer, f (Some layer) = Ok (Some (g layer))) ->
  Arr.map f (Arr.of_layers ls) = Ok (Arr.of_layers (g <$> ls)).
Proof.
  intros Hf. unfold Arr.map, Arr.of_layers. cbn.
  rewrite (map_elems_layers (fun layer => Some (g layer))); [|done].
  cbn. by rewrite <- list_fmap_compose.
Qed.

Lemma filter_layers p ls :
  Arr.filter (has_other_id p) (Arr.of_layers ls)
  = Ok (Arr.of_layers (List.filter (fun layer => negb (Layer.id layer =? p)) ls)).
Proof.
  unfold Arr.filter, Arr.of_layers. cbn.
  induction ls as [|layer ls IH]; [done|].
  cbn in *. destruct (Arr.filter_elems _ _) as [l'|] eqn:E; [|done].
  cbn in *. injection IH as IH. destruct (negb _); cbn; by rewrite IH.
Qed.

Lemma findIndex_absent p ls i :
  p ∉ ids ls ->
  Arr.findIndex_from (has_id p) (Some <$> ls) i = Ok (-1).
Proof.
  revert i. induction ls as [|layer ls IH]; intros i Hp; [done|].
  cbn in *. apply not_elem_of_cons in Hp as [Hne Hp].
  destruct (Z.eqb_spec (Layer.id layer) p); [done|].
  cbn. by apply IH.
Qed.

Lemma findIndex_first p pre layer post i :
  p ∉ ids pre -> Layer.id layer = p ->
  Arr.findIndex_from (has_id p) (Some <$> (pre ++ layer :: post)) i
  = Ok (i + Z.of_nat (length pre)).
Proof.
  revert i. induction pre as [|l0 pre IH]; intros i Hp Hid.
  - cbn. rewrite Hid, Z.eqb_refl. cbn. f_equal. lia.
  - cbn in *. apply not_elem_of_cons in Hp as [Hne Hp].
    destruct (Z.eqb_spec (Layer.id l0) p); [done|].
    cbn. rewrite IH by done. f_equal. lia.
Qed.

(** On an array of the data model [findIndex] returns, and its result
    is [-1] or an index of the array. *)
Lemma findIndex_from_layers p ls i :
  ∃ k, Arr.findIndex_from (has_id p) (Some <$> ls) i = Ok k
       ∧ (k = -1 ∧ (p ∉ ids ls)
          ∨ ∃ pre layer post, ls = pre ++ layer :: post ∧ (p ∉ ids pre)
              ∧ Layer.id layer = p ∧ k = i + Z.of_nat (length pre)).
Proof.
  revert i. induction ls as [|l0 ls IH]; intros i.
  - exists (-1). split; [done|]. left. split; [done|]. apply not_elem_of_nil.
  - cbn. destruct (Z.eqb_spec (Layer.id l0) p) as [E|NE]; cbn.
    + exists i. split; [done|]. right. exists [], l0, ls.
      split_and!; [done|apply not_elem_of_nil|done|]. cbn. lia.
    + destruct (IH (i + 1)) as (k & Hk & [[-> Hno]|(pre & l1 & post & -> & Hpre & Hl1 & ->)]).
      * exists (-1). split; [done|]. left. split; [done|].
        cbn. apply not_elem_of_cons. split; [congruence|done].
      * exists (i + 1 + Z.of_nat (length pre)). split; [done|]. right.
        exists (l0 :: pre), l1, post. split_and!; [done| |done|].
        -- cbn. apply not_elem_of_cons. split; [congruence|done].
        -- cbn [length]. lia.
Qed.

(** On an array of the data model [findIndex] returns, and its result
    is [-1] or the first index holding the id. *)
Lemma findIndex_layers p ls :
  ∃ k, Arr.findIndex (has_id p) (Arr.of_layers ls) = Ok k
       ∧ (k = -1 ∧ (p ∉ ids ls)
          ∨ ∃ pre layer post, ls = pre ++ layer :: post ∧ (p ∉ ids pre)
              ∧ Layer.id layer = p ∧ k = Z.of_nat (length pre)).
Proof.
  destruct (findIndex_from_layers p ls 0) as (k & Hk & H). exists k. split; [done|].
  destruct H as [H|(pre & l1 & post & H1 & H2 & H3 & H4)]; [by left|].
  right. exists pre, l1, post. split_and!; first [done|lia].
Qed.

Lemma findIndex_first_layers p pre layer post :
  p ∉ ids pre -> Layer.id layer = p ->
  Arr.findIndex (has_id p) (Arr.of_layers (pre ++ layer :: post))
  = Ok (Z.of_nat (length pre)).
Proof.
  intros Hp Hid. unfold Arr.findIndex, Arr.of_layers. cbn [Arr.elems Arr.of_list].
  by rewrite findIndex_first.
Qed.

Lemma length_layers ls : Arr.length (Arr.of_layers ls) = Z.of_nat (length ls).
Proof. unfold Arr.length. cbn. by rewrite length_fmap. Qed.

Lemma get_layers ls (i : nat) :
  Arr.get (Arr.of_layers ls) (Z.of_nat i) = ls !! i.
Proof.
  unfold Arr.get, Arr.of_layers. cbn.
  destruct (Z.leb_spec 0 (Z.of_nat i)); [|lia].
  rewrite Nat2Z.id, list_lookup_fmap. by destruct (ls !! i).
Qed.

Lemma set_in_bounds (l : list slot) m (i : nat) v :
  (i < length l)%nat ->
  Arr.set (Arr.mk l m) (Z.of_nat i) v = Arr.mk (<[i := v]> l) m.
Proof.
  intros Hi. unfold Arr.set, Arr.length. cbn.
  destruct (Z.leb_spec 0 (Z.of_nat i)); [|lia].
  destruct (Z.ltb_spec (Z.of_nat i) (Z.of_nat (length l))); [|lia].
  by rewrite Nat2Z.id.
Qed.

Lemma lookup_second pre a b post :
  (pre ++ a :: b :: post) !! S (length pre) = Some b.
Proof. induction pre; [done|]. cbn. done. Qed.

Lemma insert_two (l1 l2 : list slot) x y u v :
  <[S (length l1) := v]> (<[length l1 := u]> (l1 ++ x :: y :: l2))
  = l1 ++ u :: v :: l2.
Proof. induction l1 as [|z l1 IH]; [done|]. simpl. f_equal. exact IH. Qed.

Lemma insert_two_rev (l1 l2 : list slot) x y u v :
  <[length l1 := u]> (<[S (length l1) := v]> (l1 ++ x :: y :: l2))
  = l1 ++ u :: v :: l2.
Proof. induction l1 as [|z l1 IH]; [done|]. simpl. f_equal. exact IH. Qed.

(** Swapping two neighbours inside the bounds, as [MOVE_LAYER_UP] does
    it ([i], then [i + 1]) and as [MOVE_LAYER_DOWN] does it ([i], then
    [i - 1]). *)
Lemma swap_neighbours_up pre a b post :
  swap (Arr.of_list (Arr.elems (Arr.of_layers (pre ++ a :: b :: post))))
       (Z.of_nat (length pre)) (Z.of_nat (length pre) + 1)
  = Arr.of_layers (pre ++ b :: a :: post).
Proof.
  unfold swap. cbn [Arr.elems Arr.of_layers Arr.of_list].
  replace (Z.of_nat (length pre) + 1) with (Z.of_nat (S (length pre))) by lia.
  change (Arr.of_list (Some <$> ?l)) with (Arr.of_layers l).
  rewrite !get_layers, lookup_second, list_lookup_middle by done.
  unfold Arr.of_layers, Arr.of_list.
  rewrite set_in_bounds by (rewrite length_fmap, length_app; cbn; lia).
  rewrite set_in_bounds by (rewrite length_insert, length_fmap, length_app; cbn; lia).
  f_equal. rewrite !fmap_app. cbn.
  rewrite <- (length_fmap Some pre). apply insert_two.
Qed.

Lemma swap_neighbours_down pre a b post :
  swap (Arr.of_list (Arr.elems (Arr.of_layers (pre ++ a :: b :: post))))
       (Z.of_nat (length pre) + 1) (Z.of_nat (length pre) + 1 - 1)
  = Arr.of_layers (pre ++ b :: a :: post).
Proof.
  unfold swap. cbn [Arr.elems Arr.of_layers Arr.of_list].
  replace (Z.of_nat (length pre) + 1 - 1) with (Z.of_nat (length pre)) by lia.
  replace (Z.of_nat (length pre) + 1) with (Z.of_nat (S (length pre))) by lia.
  change (Arr.of_list (Some <$> ?l)) with (Arr.of_layers l).
  rewrite !get_layers, lookup_second, list_lookup_middle by done.
  unfold Arr.of_layers, Arr.of_list.
  rewrite set_in_bounds by (rewrite length_fmap, length_app; cbn; lia).
  rewrite set_in_bounds by (rewrite length_insert, length_fmap, length_app; cbn; lia).
  f_equal. rewrite !fmap_app. cbn.
  rewrite <- (length_fmap Some pre). apply insert_two_rev.
Qed.

End DenseArrays.

(** ** The reducer on the states of the data model *)

Section Transitions.

Variables (b : option string) (ls : list Layer.t) (sel : option Z) (n : Z).

Lemma reduce_update id u :
  memeEditorReducer (state_of b ls sel n) (UPDATE_TEXT_LAYER id u)
  = Ok (state_of b
          ((fun layer => if Layer.id layer =? id then Layer.spread layer u else layer) <$> ls)
          sel n).
Proof.
  unfold memeEditorReducer, state_of. cbn [textLayers].
  by erewrite map_layers.
Qed.

Lemma reduce_delete p :
  let remaining := List.filter (fun layer => negb (Layer.id layer =? p)) ls in
  memeEditorReducer (state_of b ls sel n) (DELETE_TEXT_LAYER p)
  = Ok (state_of b remaining
          (if selected_is sel p then id_or_null (head remaining) else sel) n).
Proof.
  intros remaining. unfold memeEditorReducer, state_of. cbn [textLayers].
  rewrite filter_layers. cbn. fold remaining. by destruct remaining.
Qed.

Lemma filter_absent p :
  p ∉ ids ls -> List.filter (fun layer => negb (Layer.id layer =? p)) ls = ls.
Proof.
  clear. induction ls as [|layer l IH]; [done|].
  cbn. intros [Hne Hp]%not_elem_of_cons.
  destruct (Z.eqb_spec (Layer.id layer) p); [congruence|].
  cbn. by rewrite IH.
Qed.

Lemma update_absent id u :
  id ∉ ids ls ->
  (fun layer => if Layer.id layer =? id then Layer.spread layer u else layer) <$> ls = ls.
Proof.
  clear. induction ls as [|layer l IH]; [done|].
  cbn. intros [Hne Hp]%not_elem_of_cons.
  destruct (Z.eqb_spec (Layer.id layer) id); [congruence|].
  by rewrite IH.
Qed.

Lemma reduce_move_down_absent p :
  p ∉ ids ls ->
  memeEditorReducer (state_of b ls sel n) (MOVE_LAYER_DOWN p) = Ok (state_of b ls sel n).
Proof.
  intros Hp. unfold memeEditorReducer, state_of. cbn [textLayers].
  unfold Arr.findIndex, Arr.of_layers. cbn [Arr.elems Arr.of_list].
  by rewrite findIndex_absent.
Qed.

(** From a state of the data model every transition returns. *)
Lemma reduce_returns action :
  ∃ state', memeEditorReducer (state_of b ls sel n) action = Ok state'.
Proof.
  destruct action as [u| |id u|p|p|p|p| |ty]; try (eexists; reflexivity).
  - rewrite reduce_update. eauto.
  - rewrite reduce_delete. eauto.
  - unfold memeEditorReducer, state_of. cbn [textLayers].
    destruct (findIndex_layers p ls) as (k & -> & _). cbn.
    destruct (k <? _); eauto.
  - unfold memeEditorReducer, state_of. cbn [textLayers].
    destruct (findIndex_layers p ls) as (k & -> & _). cbn.
    destruct (0 <? k); eauto.
Qed.

End Transitions.

(** No transition but [RESET] touches the counter downwards, on any
    state whatever. *)
Lemma step_counter (state state' : EditorState) (action : Action) :
  is_reset action = false ->
  memeEditorReducer state action = Ok state' ->
  nextLayerId state ≤ nextLayerId state'.
Proof.
  intros Hr H. destruct action as [u| |id u|p|p|p|p| |ty]; cbn in *; try discriminate.
  - injection H as <-. cbn. lia.
  - injection H as <-. cbn. lia.
  - destruct (Arr.map _ _); cbn in H; [|done]. injection H as <-. cbn. lia.
  - destruct (Arr.filter _ _); cbn in H; [|done]. injection H as <-. cbn. lia.
  - injection H as <-. cbn. lia.
  - destruct (Arr.findIndex _ _) as [k|]; cbn in H; [|done].
    destruct (k <? _); injection H as <-; cbn; lia.
  - destruct (Arr.findIndex _ _) as [k|]; cbn in H; [|done].
    destruct (0 <? k); injection H as <-; cbn; lia.
  - injection H as <-. lia.
Qed.

Lemma run_counter (actions : list Action) : ∀ state state',
  forallb (fun action => negb (is_reset action)) actions = true ->
  run state actions = Ok state' ->
  nextLayerId state ≤ nextLayerId state'.
Proof.
  induction actions as [|action rest IH]; intros state state' Hall H; cbn in *.
  - injection H as <-. lia.
  - apply andb_prop in Hall as [Ha Hrest].
    destruct (memeEditorReducer state action) as [mid|] eqn:E; cbn in H; [|done].
    apply negb_true_iff in Ha.
    pose proof (step_counter _ _ _ Ha E). specialize (IH _ _ Hrest H). lia.
Qed.

(** ** Transitions on ids that no layer has *)

(** What does hold for an id no layer of the state has: [UPDATE_TEXT_LAYER]
    and [MOVE_LAYER_DOWN] return the state as it is, [DELETE_TEXT_LAYER]
    too unless the selection dangles on that very id, and an action of
    another type returns the state for every payload. *)
Lemma absent_id_unchanged b ls sel n id :
  id ∉ ids ls ->
  (∀ u, memeEditorReducer (state_of b ls sel n) (UPDATE_TEXT_LAYER id u)
        = Ok (state_of b ls sel n))
  ∧ memeEditorReducer (state_of b ls sel n) (MOVE_LAYER_DOWN id) = Ok (state_of b ls sel n)
  ∧ (sel ≠ Some id ->
     memeEditorReducer (state_of b ls sel n) (DELETE_TEXT_LAYER id) = Ok (state_of b ls sel n))
  ∧ (∀ ty, memeEditorReducer (state_of b ls sel n) (OTHER ty) = Ok (state_of b ls sel n)).
Proof.
  intros Hid. split_and!.
  - intros u. by rewrite reduce_update, update_absent.
  - by apply reduce_move_down_absent.
  - intros Hsel. rewrite reduce_delete. cbn. rewrite filter_absent by done.
    destruct sel as [i|]; cbn; [|done].
    destruct (Z.eqb_spec i id); [congruence|done].
  - done.
Qed.

(** C1 (the code departs from it). The claim: a transition carrying an id
    that no layer has returns the state unchanged, and the reducer never
    fails. On the editor holding the single layer 1, no layer has id 99,
    yet [MOVE_LAYER_UP 99] returns a state whose layer array is
    [[undefined]], the layer having moved to the property [-1] of the
    array; [MOVE_LAYER_DOWN 99] on the same state does return it
    unchanged; and on the state [MOVE_LAYER_UP 99] returned, the next
    transition that looks at the layers throws. *)
Theorem C1_move_up_absent_id_corrupts_layers :
  let broken := with_layers one_layer (Arr.mk [None] {[ -1 := Some layer1 ]}) in
  run initialState [SET_BASE_IMAGE (Some "img1"); ADD_TEXT_LAYER] = Ok one_layer
  ∧ (99 ∉ ids [layer1])
  ∧ memeEditorReducer one_layer (MOVE_LAYER_UP 99) = Ok broken
  ∧ broken ≠ one_layer
  ∧ textLayers broken ≠ textLayers one_layer
  ∧ memeEditorReducer one_layer (MOVE_LAYER_DOWN 99) = Ok one_layer
  ∧ memeEditorReducer broken (MOVE_LAYER_DOWN 1) = TypeError
  ∧ memeEditorReducer broken (UPDATE_TEXT_LAYER 1 Layer.no_updates) = TypeError.
Proof.
  cbn zeta. split_and!; try reflexivity.
  - cbn. intros [H|H]%elem_of_cons; [discriminate|by apply elem_of_nil in H].
  - intros H. apply (f_equal (fun s => Arr.elems (textLayers s))) in H. discriminate.
  - intros H. apply (f_equal Arr.elems) in H. discriminate.
Qed.

(** ** The id counter *)

(** C3 (as stated, refuted). [RESET] returns the initial state, whose
    counter is 1: after one [ADD_TEXT_LAYER] the counter is 2, and
    [RESET] brings it back to 1, below its value before; the next
    [ADD_TEXT_LAYER] then hands out id 1 a second time. *)
Lemma C3_reset_decrements_counter :
  let before := state_of None [layer1] (Some 1) 2 in
  run initialState [ADD_TEXT_LAYER] = Ok before
  ∧ memeEditorReducer before RESET = Ok initialState
  ∧ ¬ (nextLayerId before ≤ nextLayerId initialState)
  ∧ run before [RESET; ADD_TEXT_LAYER] = Ok before.
Proof. cbn zeta. split_and!; try reflexivity. cbn. lia. Qed.

(** C3 (amended). Every transition other than [RESET] leaves the counter
    where it was or above: from a state of the data model it returns a
    state whose [nextLayerId] is at least the input's, and along any run
    without [RESET], from any state, the counter never goes down; so the
    id [ADD_TEXT_LAYER] hands out (the counter's value) is strictly below
    the id any later [ADD_TEXT_LAYER] of such a run hands out. *)
Theorem C3_counter_never_decremented_without_reset :
  (∀ b ls sel n action,
     is_reset action = false ->
     ∃ state', memeEditorReducer (state_of b ls sel n) action = Ok state'
               ∧ n ≤ nextLayerId state')
  ∧ (∀ state actions state',
       no_reset actions = true ->
       run state actions = Ok state' ->
       nextLayerId state ≤ nextLayerId state'
       ∧ (head actions = Some ADD_TEXT_LAYER ->
          Layer.id (newLayer state) < Layer.id (newLayer state'))).
Proof.
  split.
  - intros b ls sel n action Hr.
    destruct (reduce_returns b ls sel n action) as [state' E].
    exists state'. split; [done|]. apply (step_counter _ _ _ Hr E).
  - intros state actions state' Hno Hrun. split.
    + by apply (run_counter actions).
    + destruct actions as [|a rest]; [done|]. intros [= ->]. cbn in *.
      pose proof (run_counter rest _ _ Hno Hrun) as H. cbn in H. lia.
Qed.

(** On the one-layer editor, and on a run from the initial state that adds,
    changes the base image, adds again and deletes. *)
Lemma C3_counter_never_decremented_without_reset_witness :
  (∃ state', memeEditorReducer one_layer (MOVE_LAYER_UP 1) = Ok state'
             ∧ 2 ≤ nextLayerId state')
  ∧ nextLayerId initialState ≤ nextLayerId one_layer
  ∧ Layer.id (newLayer initialState) < Layer.id (newLayer one_layer).
Proof.
  destruct C3_counter_never_decremented_without_reset as [Hstep Hrun].
  split.
  - apply (Hstep (Some "img1") [layer1] (Some 1) 2 (MOVE_LAYER_UP 1)). reflexivity.
  - destruct (Hrun initialState [ADD_TEXT_LAYER; SET_BASE_IMAGE (Some "img1"); ADD_TEXT_LAYER;
                                  DELETE_TEXT_LAYER 1]
                   (state_of (Some "img1") [newLayer one_layer] (Some 2) 3)) as [H1 H2];
      [reflexivity|reflexivity|].
    split; [cbn in *; lia|]. specialize (H2 eq_refl). cbn in *. lia.
Defined.

(** ** Setting the base image *)

(** C5. [SET_BASE_IMAGE u] applied once and then a second time: both
    resulting states have no layers and no selection, whatever layers the
    state had, and the two states agree on [baseImage], the layers and
    the selection (they are the same state). *)
Theorem C5_set_base_image_idempotent (state : EditorState) (u : option string) :
  ∃ once twice,
    memeEditorReducer state (SET_BASE_IMAGE u) = Ok once
    ∧ memeEditorReducer once (SET_BASE_IMAGE u) = Ok twice
    ∧ Arr.elems (textLayers once) = [] ∧ selectedLayerId once = None
    ∧ Arr.elems (textLayers twice) = [] ∧ selectedLayerId twice = None
    ∧ baseImage once = u ∧ baseImage twice = u
    ∧ textLayers twice = textLayers once
    ∧ selectedLayerId twice = selectedLayerId once
    ∧ twice = once.
Proof. do 2 eexists. split_and!; reflexivity. Qed.

(** C10. [SET_BASE_IMAGE] returns a state with the new base image, no
    layers and no selection, and with [nextLayerId] as it was; the layer
    added next therefore takes the id the counter had before the base
    image changed. [RESET] is the transition that returns the counter to
    1: every other one leaves it where it was or above. *)
Theorem C10_set_base_image_keeps_counter (state : EditorState) (u : option string) :
  ∃ state',
    memeEditorReducer state (SET_BASE_IMAGE u) = Ok state'
    ∧ baseImage state' = u
    ∧ textLayers state' = Arr.empty
    ∧ selectedLayerId state' = None
    ∧ nextLayerId state' = nextLayerId state
    ∧ memeEditorReducer state' ADD_TEXT_LAYER
      = Ok (state_of u [newLayer state] (Some (nextLayerId state)) (nextLayerId state + 1))
    ∧ Layer.id (newLayer state) = nextLayerId state
    ∧ memeEditorReducer state RESET = Ok initialState
    ∧ nextLayerId initialState = 1
    ∧ (∀ action after, is_reset action = false ->
         memeEditorReducer state action = Ok after ->
         nextLayerId state ≤ nextLayerId after).
Proof.
  eexists. split_and!; try reflexivity.
  intros action after. apply step_counter.
Qed.

(** A second base image on the one-layer editor: the next layer gets id 2. *)
Lemma C10_set_base_image_keeps_counter_witness :
  ∃ state',
    memeEditorReducer one_layer (SET_BASE_IMAGE (Some "img2")) = Ok state'
    ∧ nextLayerId state' = 2
    ∧ memeEditorReducer state' ADD_TEXT_LAYER
      = Ok (state_of (Some "img2") [newLayer one_layer] (Some 2) 3).
Proof.
  destruct (C10_set_base_image_keeps_counter one_layer (Some "img2"))
    as (state' & H1 & _ & _ & _ & H2 & H3 & _ & _ & _ & H4).
  pose proof (H4 (SELECT_LAYER None) _ eq_refl eq_refl) as _.
  exists state'. split_and!; [exact H1|exact H2|exact H3].
Defined.

(** ** Selection consistency under add and delete *)

Lemma selection_consistent_layers b ls sel n :
  selection_consistent (state_of b ls sel n)
  <-> match sel with None => True | Some i => i ∈ ids ls end.
Proof.
  unfold selection_consistent, ids. cbn. destruct sel as [i|]; [|done].
  rewrite list_elem_of_fmap. split.
  - intros (layer & Hin & Hid). apply list_elem_of_fmap in Hin as (l' & [= <-] & Hin). eauto.
  - intros (layer & -> & Hin). exists layer. split; [|done].
    apply list_elem_of_fmap. eauto.
Qed.

Lemma elem_of_remaining p (ls : list Layer.t) layer :
  layer ∈ List.filter (fun layer => negb (Layer.id layer =? p)) ls
  <-> layer ∈ ls ∧ Layer.id layer ≠ p.
Proof.
  rewrite !list_elem_of_In, filter_In, negb_true_iff, Z.eqb_neq. done.
Qed.

(** One step of the invariant: from a state of the data model with a
    consistent selection, [ADD_TEXT_LAYER] and [DELETE_TEXT_LAYER] return
    such a state again. *)
Lemma add_delete_step b ls sel n action :
  is_add_or_delete action ->
  selection_consistent (state_of b ls sel n) ->
  ∃ ls' sel' n',
    memeEditorReducer (state_of b ls sel n) action = Ok (state_of b ls' sel' n')
    ∧ selection_consistent (state_of b ls' sel' n').
Proof.
  intros Ha Hsel. destruct action as [u| |id u|p|p|p|p| |ty]; try done.
  - exists (ls ++ [newLayer (state_of b ls sel n)]), (Some n), (n + 1). split.
    + unfold memeEditorReducer, state_of, Arr.of_layers. cbn.
      by rewrite fmap_app.
    + apply selection_consistent_layers. unfold ids. rewrite fmap_app.
      apply elem_of_app. right. cbn. apply list_elem_of_singleton. done.
  - rewrite reduce_delete. cbn zeta. do 3 eexists. split; [reflexivity|].
    apply selection_consistent_layers. apply selection_consistent_layers in Hsel.
    destruct (selected_is sel p) eqn:E.
    + destruct (List.filter _ ls) as [|first rest] eqn:F; cbn; [done|].
      destruct (Layer.id first =? 0); [done|]. cbn. apply elem_of_cons. by left.
    + destruct sel as [i|]; [|done]. cbn in E. apply Z.eqb_neq in E.
      unfold ids in *. apply list_elem_of_fmap in Hsel as (layer & -> & Hin).
      apply list_elem_of_fmap. exists layer. split; [done|].
      by apply elem_of_remaining.
Qed.

Lemma add_delete_run actions : ∀ b ls sel n,
  Forall is_add_or_delete actions ->
  selection_consistent (state_of b ls sel n) ->
  ∃ state, run (state_of b ls sel n) actions = Ok state ∧ selection_consistent state.
Proof.
  induction actions as [|action rest IH]; intros b ls sel n Hall Hsel.
  - exists (state_of b ls sel n). done.
  - apply Forall_cons in Hall as [Ha Hrest].
    destruct (add_delete_step b ls sel n action Ha Hsel) as (ls' & sel' & n' & E & Hsel').
    destruct (IH b ls' sel' n' Hrest Hsel') as (state & Hrun & Hfin).
    exists state. split; [|done]. cbn. rewrite E. done.
Qed.

(** C2. From the initial state, every sequence of [ADD_TEXT_LAYER] and
    [DELETE_TEXT_LAYER] transitions (with any ids) runs to a state, and in
    that state [selectedLayerId] is [null] or the id of a layer that is
    present. *)
Theorem C2_selection_consistent_after_add_delete (actions : list Action) :
  Forall is_add_or_delete actions ->
  ∃ state, run initialState actions = Ok state ∧ selection_consistent state.
Proof.
  intros Hall. apply (add_delete_run actions None [] None 1 Hall). exact I.
Qed.

(** Two layers added, layer 2 deleted, then an id no layer has (7). *)
Lemma C2_selection_consistent_after_add_delete_witness :
  ∃ state,
    run initialState [ADD_TEXT_LAYER; ADD_TEXT_LAYER; DELETE_TEXT_LAYER 2; DELETE_TEXT_LAYER 7]
    = Ok state
    ∧ selection_consistent state.
Proof.
  apply C2_selection_consistent_after_add_delete.
  repeat constructor.
Defined.

(** ** Z-order *)

(** Moving a layer up and then down again, when the layer right above it
    has another id. *)
Lemma move_up_then_down b sel n (pre : list Layer.t) (layer above : Layer.t)
    (post : list Layer.t) id :
  id ∉ ids pre -> Layer.id layer = id -> Layer.id above ≠ id ->
  memeEditorReducer (state_of b (pre ++ layer :: above :: post) sel n) (MOVE_LAYER_UP id)
  = Ok (state_of b (pre ++ above :: layer :: post) sel n)
  ∧ memeEditorReducer (state_of b (pre ++ above :: layer :: post) sel n) (MOVE_LAYER_DOWN id)
    = Ok (state_of b (pre ++ layer :: above :: post) sel n).
Proof.
  intros Hpre Hid Hab. split.
  - unfold memeEditorReducer, state_of. cbn [textLayers].
    rewrite findIndex_first_layers, bind_Ok, length_layers, length_app by done.
    cbn [length].
    destruct (Z.ltb_spec (Z.of_nat (length pre))
                (Z.of_nat (length pre + S (S (length post))) - 1)); [|lia].
    unfold with_layers. cbn [baseImage selectedLayerId nextLayerId].
    by rewrite (swap_neighbours_up pre layer above post).
  - unfold memeEditorReducer, state_of. cbn [textLayers].
    assert (id ∉ ids (pre ++ [above])) as Hpre'.
    { unfold ids. rewrite fmap_app. intros [H|H]%elem_of_app; [done|]. cbn in H.
      apply list_elem_of_singleton in H. congruence. }
    pose proof (findIndex_first_layers id (pre ++ [above]) layer post Hpre' Hid) as E.
    rewrite <- app_assoc in E. cbn [app] in E. rewrite E, bind_Ok.
    rewrite length_app. cbn [length].
    destruct (Z.ltb_spec 0 (Z.of_nat (length pre + 1))); [|lia].
    unfold with_layers. cbn [baseImage selectedLayerId nextLayerId].
    replace (Z.of_nat (length pre + 1)) with (Z.of_nat (length pre) + 1) by lia.
    by rewrite (swap_neighbours_down pre above layer post).
Qed.

(** C4. In a state whose layers have pairwise distinct ids, for the id of
    a layer that is neither the first nor the last of the sequence:
    [MOVE_LAYER_UP id] returns a state on which [MOVE_LAYER_DOWN id]
    returns the original state, layer sequence included. *)
Theorem C4_move_up_then_down_restores b (ls : list Layer.t) sel n id (i : nat) :
  NoDup (ids ls) ->
  ids ls !! i = Some id ->
  (0 < i)%nat -> (i < length ls - 1)%nat ->
  ∃ moved,
    memeEditorReducer (state_of b ls sel n) (MOVE_LAYER_UP id) = Ok (state_of b moved sel n)
    ∧ moved !! i = ls !! S i ∧ moved !! S i = ls !! i
    ∧ memeEditorReducer (state_of b moved sel n) (MOVE_LAYER_DOWN id)
      = Ok (state_of b ls sel n).
Proof.
  intros Hnd Hi _ Hlast. unfold ids in Hi.
  rewrite list_lookup_fmap in Hi.
  destruct (ls !! i) as [layer|] eqn:Hl; [|done]. cbn in Hi. injection Hi as Hid.
  destruct (ls !! S i) as [above|] eqn:Ha;
    [|apply lookup_ge_None in Ha; lia].
  pose proof (take_drop_middle ls i layer Hl) as Hsplit.
  pose proof (lookup_lt_Some _ _ _ Hl) as Hlen.
  assert (drop (S i) ls = above :: drop (S (S i)) ls) as Hdrop.
  { by apply drop_S. }
  rewrite Hdrop in Hsplit.
  set (pre := take i ls) in *. set (post := drop (S (S i)) ls) in *.
  rewrite <- Hsplit in Hnd. unfold ids in Hnd. rewrite fmap_app in Hnd. cbn in Hnd.
  apply NoDup_app in Hnd as (_ & Hdisj & Hnd2).
  apply NoDup_cons in Hnd2 as [Hnotin _].
  assert (length pre = i) as Hpre by (unfold pre; rewrite length_take; lia).
  exists (pre ++ above :: layer :: post).
  destruct (move_up_then_down b sel n pre layer above post id) as [Hup Hdown].
  - intros Hin. apply (Hdisj _ Hin). rewrite Hid. apply elem_of_cons. by left.
  - done.
  - intros E. apply Hnotin. rewrite Hid, <- E. apply elem_of_cons. by left.
  - rewrite Hsplit in Hup, Hdown. split_and!; [done| | |done].
    + by apply list_lookup_middle.
    + rewrite <- Hpre. apply lookup_second.
Qed.

(** The middle layer of three, moved up and down again. *)
Lemma C4_move_up_then_down_restores_witness :
  let a := newLayer (state_of None [] None 1) in
  let b := newLayer (state_of None [] None 2) in
  let c := newLayer (state_of None [] None 3) in
  ∃ moved,
    memeEditorReducer (state_of None [a; b; c] (Some 3) 4) (MOVE_LAYER_UP 2)
    = Ok (state_of None moved (Some 3) 4)
    ∧ moved !! 1%nat = [a; b; c] !! 2%nat ∧ moved !! 2%nat = [a; b; c] !! 1%nat
    ∧ memeEditorReducer (state_of None moved (Some 3) 4) (MOVE_LAYER_DOWN 2)
      = Ok (state_of None [a; b; c] (Some 3) 4).
Proof.
  cbn zeta.
  apply (C4_move_up_then_down_restores None _ (Some 3) 4 2 1).
  - apply (bool_decide_unpack _). vm_compute. exact I.
  - reflexivity.
  - lia.
  - cbn. lia.
Defined.

(** ** Partial updates *)

Lemma spread_merged layer u : Layer.merged u (Layer.spread layer u) layer.
Proof.
  destruct u. unfold Layer.merged, Layer.spread. cbn.
  repeat split;
    match goal with |- Layer.merged_field ?o _ _ => by destruct o end.
Qed.

(** Any patch: a layer with the id is merged with it key by key, the
    layers with another id and the rest of the state are as before. *)
Lemma update_isolation b (ls : list Layer.t) sel n id u :
  ∃ ls',
    memeEditorReducer (state_of b ls sel n) (UPDATE_TEXT_LAYER id u)
    = Ok (state_of b ls' sel n)
    ∧ length ls' = length ls
    ∧ (∀ (i : nat) layer, ls !! i = Some layer ->
         ∃ layer', ls' !! i = Some layer'
           ∧ (Layer.id layer = id -> Layer.merged u layer' layer)
           ∧ (Layer.id layer ≠ id -> layer' = layer)).
Proof.
  eexists. split; [apply reduce_update|]. split.
  - by rewrite length_fmap.
  - intros i layer Hl. rewrite list_lookup_fmap, Hl. cbn. eexists. split; [done|].
    destruct (Z.eqb_spec (Layer.id layer) id) as [E|NE]; split; try done.
    intros _. apply spread_merged.
Qed.

(** C6. [UPDATE_TEXT_LAYER id { fontSize: v }] on a state holding a layer
    with that id returns a state with the same base image, selection and
    counter and as many layers, in which a layer with that id has
    [fontSize = v] and every other field as before, and every layer with
    another id is as before. *)
Theorem C6_update_font_size_only b (ls : list Layer.t) sel n id v :
  id ∈ ids ls ->
  ∃ ls',
    memeEditorReducer (state_of b ls sel n) (UPDATE_TEXT_LAYER id (only_fontSize v))
    = Ok (state_of b ls' sel n)
    ∧ length ls' = length ls
    ∧ (∀ (i : nat) layer, ls !! i = Some layer ->
         ∃ layer', ls' !! i = Some layer'
           ∧ (Layer.id layer = id ->
              Layer.fontSize layer' = v ∧ same_but_fontSize layer' layer)
           ∧ (Layer.id layer ≠ id -> layer' = layer))
    ∧ (∃ (i : nat) layer', ls' !! i = Some layer' ∧ Layer.id layer' = id
                           ∧ Layer.fontSize layer' = v).
Proof.
  intros Hin. eexists. split; [apply reduce_update|]. split_and!.
  - by rewrite length_fmap.
  - intros i layer Hl. rewrite list_lookup_fmap, Hl. cbn. eexists. split; [done|].
    destruct (Z.eqb_spec (Layer.id layer) id) as [E|NE].
    + split; [|done]. intros _. split; [done|]. by repeat split.
    + split; [done|]. done.
  - unfold ids in Hin. apply list_elem_of_fmap in Hin as (layer & -> & Hin).
    apply list_elem_of_lookup in Hin as [i Hl].
    exists i. eexists. rewrite list_lookup_fmap, Hl. cbn.
    rewrite Z.eqb_refl. done.
Qed.

(** [{ fontSize: 80 }] on the one-layer editor. *)
Lemma C6_update_font_size_only_witness :
  ∃ ls',
    memeEditorReducer one_layer (UPDATE_TEXT_LAYER 1 (only_fontSize 80))
    = Ok (state_of (Some "img1") ls' (Some 1) 2)
    ∧ length ls' = 1%nat
    ∧ (∃ (i : nat) layer', ls' !! i = Some layer' ∧ Layer.id layer' = 1
                           ∧ Layer.fontSize layer' = 80).
Proof.
  destruct (C6_update_font_size_only (Some "img1") [layer1] (Some 1) 2 1 80)
    as (ls' & H1 & H2 & _ & H3).
  - apply (bool_decide_unpack _). vm_compute. exact I.
  - exists ls'. split_and!; [exact H1|exact H2|exact H3].
Defined.

(** ** Deleting a layer *)




(** ** Hit-testing *)

Section HitTest.

Import Canvas.

Variables (px py : Z).

Lemma inside_box_contains layer :
  inside layer px py = bool_decide (box_contains layer px py).
Proof.
  unfold inside, box_contains.
  destruct (bool_decide_reflect
              (Layer.x layer ≤ px ≤ Layer.x layer + Layer.width layer
               ∧ Layer.y layer ≤ py ≤ Layer.y layer + Layer.height layer)) as [H|H].
  - rewrite !andb_true_iff, Z.geb_le, !Z.leb_le, Z.geb_le. lia.
  - apply not_true_is_false. rewrite !andb_true_iff, Z.geb_le, !Z.leb_le, Z.geb_le. lia.
Qed.

(** The loop, started with [n] indices left, has looked at the layers
    below index [n] from the last one down. *)
Lemma hit_loop_layers (ls : list Layer.t) (n : nat) :
  (n ≤ length ls)%nat ->
  hit_loop (Arr.of_layers ls) px py n
  = Ok (List.find (fun layer => inside layer px py) (rev (take n ls))).
Proof.
  induction n as [|i IH]; intros Hn.
  - by rewrite take_0.
  - destruct (lookup_lt_is_Some_2 ls i) as [layer Hl]; [lia|].
    cbn [hit_loop]. rewrite get_layers, Hl. cbn [deref]. rewrite bind_Ok.
    rewrite (take_S_r _ _ _ Hl), rev_app_distr. cbn [rev app List.find].
    destruct (inside layer px py); [done|]. apply IH. lia.
Qed.

Lemma hit_test_layers (ls : list Layer.t) :
  hit_test (Arr.of_layers ls) px py = Ok (hit_spec ls px py).
Proof.
  unfold hit_test, hit_spec. cbn [Arr.elems Arr.of_layers Arr.of_list].
  rewrite length_fmap, hit_loop_layers, take_ge by done.
  f_equal. induction (rev ls) as [|layer l IH]; [done|].
  cbn. by rewrite inside_box_contains, IH.
Qed.

(** What the first match from the top is. *)
Lemma find_from_top (ls : list Layer.t) :
  match hit_spec ls px py with
  | Some layer =>
      ∃ below above, ls = below ++ layer :: above
        ∧ box_contains layer px py
        ∧ Forall (fun other => ¬ box_contains other px py) above
  | None => Forall (fun other => ¬ box_contains other px py) ls
  end.
Proof.
  unfold hit_spec. induction ls as [|layer0 ls IH] using rev_ind.
  - cbn. constructor.
  - rewrite rev_app_distr. cbn [rev app List.find].
    destruct (bool_decide_reflect (box_contains layer0 px py)) as [H|H].
    + exists ls, []. split_and!; [done|done|constructor].
    + destruct (List.find _ (rev ls)) as [layer|].
      * destruct IH as (below & above & -> & Hb & Ha).
        exists below, (above ++ [layer0]). split_and!; [by rewrite <- app_assoc|done|].
        apply Forall_app. split; [done|]. by constructor.
      * apply Forall_app. split; [done|]. by constructor.
Qed.

Lemma fmap_rev {A B : Type} (f : A -> B) (l : list A) : f <$> rev l = rev (f <$> l).
Proof. induction l as [|a l IH]; [done|]. cbn. by rewrite fmap_app, IH. Qed.

(** The test reads no rotation. *)
Lemma hit_spec_rotation (rot : Layer.t -> Z) (ls : list Layer.t) :
  hit_spec ((fun layer => with_rotation (rot layer) layer) <$> ls) px py
  = (fun layer => with_rotation (rot layer) layer) <$> hit_spec ls px py.
Proof.
  unfold hit_spec. rewrite <- fmap_rev.
  induction (rev ls) as [|layer l IH]; [done|].
  cbn. change (box_contains (with_rotation (rot layer) layer) px py)
    with (box_contains layer px py).
  destruct (bool_decide (box_contains layer px py)); [done|]. apply IH.
Qed.

End HitTest.

(** C8. A press at the surface point [(x, y)]: the loop of
    [handleMouseDown] over the layers returns what the specification
    describes, the first layer met from the end of the sequence whose box
    [[x, x+width] × [y, y+height]] contains the point (every layer above
    it does not contain the point), or nothing when no box contains it.
    The rotations of the layers play no part. On a hit the handler
    returns the state with that layer's id selected (and the drag begun);
    without a hit it returns the state as it was. *)
Theorem C8_hit_test_topmost_box b (ls : list Layer.t) sel n loc rect e :
  let x := Canvas.clientX e - Canvas.left rect in
  let y := Canvas.clientY e - Canvas.top rect in
  let app := Canvas.mkApp (state_of b ls sel n) loc in
  Canvas.hit_test (Arr.of_layers ls) x y = Ok (Canvas.hit_spec ls x y)
  ∧ match Canvas.hit_spec ls x y with
    | Some layer =>
        (∃ below above, ls = below ++ layer :: above
           ∧ Canvas.box_contains layer x y
           ∧ Forall (fun other => ¬ Canvas.box_contains other x y) above)
        ∧ Canvas.handleMouseDown rect e app
          = Ok (Canvas.mkApp (state_of b ls (Some (Layer.id layer)) n)
                  (Canvas.mkLocal (Some (Layer.id layer)) (Canvas.resizing loc)
                     (x - Layer.x layer, y - Layer.y layer) (Canvas.editingLayer loc)))
    | None =>
        Forall (fun other => ¬ Canvas.box_contains other x y) ls
        ∧ Canvas.handleMouseDown rect e app = Ok app
    end
  ∧ (∀ rot : Layer.t -> Z,
       Canvas.hit_test
         (Arr.of_layers ((fun layer => Canvas.with_rotation (rot layer) layer) <$> ls)) x y
       = Ok ((fun layer => Canvas.with_rotation (rot layer) layer)
               <$> Canvas.hit_spec ls x y)).
Proof.
  intros x y app. split_and!.
  - apply hit_test_layers.
  - pose proof (find_from_top x y ls) as H.
    unfold Canvas.handleMouseDown. cbn [Canvas.editor app textLayers state_of].
    fold x y. rewrite hit_test_layers, bind_Ok.
    destruct (Canvas.hit_spec ls x y) as [layer|]; split; done.
  - intros rot. by rewrite hit_test_layers, hit_spec_rotation.
Qed.

(** ** Render and share payloads *)

(** C9. Whenever a handler calls the backend, [generatePreview] and
    [handleShare] send the base image and, for each layer in order, an
    object whose keys are exactly [text], [x], [y], [fontSize],
    [fontFamily], [color], [strokeColor], [strokeWidth], [textAlign] and
    [rotation], each holding the layer's value; the object has no [id],
    [width] or [height]. (With no base image they make no call.) *)
Theorem C9_payload_projection (baseImage : option string) (ls : list Layer.t) :
  let sent := Payload.mkMemeData baseImage (Payload.layer_fields <$> ls) in
  Payload.generatePreview baseImage (Arr.of_layers ls)
  = (if Payload.falsy baseImage then Payload.NoCall else Payload.Call sent)
  ∧ Payload.handleShare baseImage (Arr.of_layers ls)
    = (if Payload.falsy baseImage then Payload.NoCall else Payload.Call sent)
  ∧ length (Payload.md_textLayers sent) = length ls
  ∧ (∀ (i : nat),
       match ls !! i, Payload.md_textLayers sent !! i with
       | Some layer, Some obj =>
           fst <$> obj
           = ["text"; "x"; "y"; "fontSize"; "fontFamily"; "color"; "strokeColor";
              "strokeWidth"; "textAlign"; "rotation"]
           ∧ Payload.field obj "text" = Some (Payload.JStr (Layer.text layer))
           ∧ Payload.field obj "x" = Some (Payload.JNum (Layer.x layer))
           ∧ Payload.field obj "y" = Some (Payload.JNum (Layer.y layer))
           ∧ Payload.field obj "fontSize" = Some (Payload.JNum (Layer.fontSize layer))
           ∧ Payload.field obj "fontFamily" = Some (Payload.JStr (Layer.fontFamily layer))
           ∧ Payload.field obj "color" = Some (Payload.JStr (Layer.color layer))
           ∧ Payload.field obj "strokeColor" = Some (Payload.JStr (Layer.strokeColor layer))
           ∧ Payload.field obj "strokeWidth" = Some (Payload.JNum (Layer.strokeWidth layer))
           ∧ Payload.field obj "textAlign" = Some (Payload.JStr (Layer.textAlign layer))
           ∧ Payload.field obj "rotation" = Some (Payload.JNum (Layer.rotation layer))
           ∧ Payload.field obj "id" = None
           ∧ Payload.field obj "width" = None
           ∧ Payload.field obj "height" = None
       | None, None => True
       | _, _ => False
       end).
Proof.
  intros sent. split_and!.
  - unfold Payload.generatePreview. cbn [Arr.elems Arr.of_layers Arr.of_list].
    rewrite (map_elems_layers Payload.layer_fields) by done.
    by destruct (Payload.falsy baseImage).
  - unfold Payload.handleShare. cbn [Arr.elems Arr.of_layers Arr.of_list].
    rewrite (map_elems_layers Payload.layer_fields) by done.
    by destruct (Payload.falsy baseImage).
  - cbn. by rewrite length_fmap.
  - intros i. cbn [sent Payload.md_textLayers]. rewrite list_lookup_fmap.
    destruct (ls !! i) as [layer|]; cbn; [|done].
    split_and!; reflexivity.
Qed.

(** * Further properties of the reducer *)

Lemma state_of_eta state ls :
  textLayers state = Arr.of_layers ls ->
  state = state_of (baseImage state) ls (selectedLayerId state) (nextLayerId state).
Proof. destruct state. cbn. by intros ->. Qed.

Lemma has_layer_layers (ls : list Layer.t) i :
  has_layer (Arr.of_layers ls) i <-> i ∈ ids ls.
Proof.
  unfold has_layer, ids. cbn. rewrite list_elem_of_fmap. split.
  - intros (layer & Hin & Hid). apply list_elem_of_fmap in Hin as (l' & [= <-] & Hin). eauto.
  - intros (layer & -> & Hin). exists layer. split; [|done].
    apply list_elem_of_fmap. eauto.
Qed.

(** ** The two moves, case by case *)

Section Moves.

Variables (b : option string) (sel : option Z) (n : Z).
Implicit Types (pre post : list Layer.t) (layer above below : Layer.t) (p : Z).

Lemma reduce_move_up_swap pre layer above post p :
  p ∉ ids pre -> Layer.id layer = p ->
  memeEditorReducer (state_of b (pre ++ layer :: above :: post) sel n) (MOVE_LAYER_UP p)
  = Ok (state_of b (pre ++ above :: layer :: post) sel n).
Proof.
  intros Hpre Hid. unfold memeEditorReducer, state_of. cbn [textLayers].
  rewrite findIndex_first_layers, bind_Ok, length_layers, length_app by done.
  cbn [length].
  destruct (Z.ltb_spec (Z.of_nat (length pre))
              (Z.of_nat (length pre + S (S (length post))) - 1)); [|lia].
  unfold with_layers. cbn [baseImage selectedLayerId nextLayerId].
  by rewrite (swap_neighbours_up pre layer above post).
Qed.

Lemma reduce_move_up_top pre layer p :
  p ∉ ids pre -> Layer.id layer = p ->
  memeEditorReducer (state_of b (pre ++ [layer]) sel n) (MOVE_LAYER_UP p)
  = Ok (state_of b (pre ++ [layer]) sel n).
Proof.
  intros Hpre Hid. unfold memeEditorReducer, state_of. cbn [textLayers].
  rewrite findIndex_first_layers, bind_Ok, length_layers, length_app by done.
  cbn [length].
  destruct (Z.ltb_spec (Z.of_nat (length pre)) (Z.of_nat (length pre + 1) - 1)); [lia|done].
Qed.

Lemma reduce_move_down_swap pre below layer post p :
  p ∉ ids pre -> Layer.id below ≠ p -> Layer.id layer = p ->
  memeEditorReducer (state_of b (pre ++ below :: layer :: post) sel n) (MOVE_LAYER_DOWN p)
  = Ok (state_of b (pre ++ layer :: below :: post) sel n).
Proof.
  intros Hpre Hbelow Hid. unfold memeEditorReducer, state_of. cbn [textLayers].
  assert (p ∉ ids (pre ++ [below])) as Hpre'.
  { unfold ids. rewrite fmap_app. intros [H|H]%elem_of_app; [done|]. cbn in H.
    apply list_elem_of_singleton in H. congruence. }
  pose proof (findIndex_first_layers p (pre ++ [below]) layer post Hpre' Hid) as E.
  rewrite <- app_assoc in E. cbn [app] in E. rewrite E, bind_Ok.
  rewrite length_app. cbn [length].
  destruct (Z.ltb_spec 0 (Z.of_nat (length pre + 1))); [|lia].
  unfold with_layers. cbn [baseImage selectedLayerId nextLayerId].
  replace (Z.of_nat (length pre + 1)) with (Z.of_nat (length pre) + 1) by lia.
  by rewrite (swap_neighbours_down pre below layer post).
Qed.

Lemma reduce_move_down_bottom layer post p :
  Layer.id layer = p ->
  memeEditorReducer (state_of b (layer :: post) sel n) (MOVE_LAYER_DOWN p)
  = Ok (state_of b (layer :: post) sel n).
Proof.
  intros Hid. unfold memeEditorReducer, state_of. cbn [textLayers].
  pose proof (findIndex_first_layers p [] layer post (not_elem_of_nil _) Hid) as E.
  cbn [app] in E. by rewrite E.
Qed.

Lemma reduce_move_up_absent first rest p :
  p ∉ ids (first :: rest) ->
  memeEditorReducer (state_of b (first :: rest) sel n) (MOVE_LAYER_UP p)
  = Ok (with_layers (state_of b (first :: rest) sel n)
          (Arr.mk (None :: (Some <$> rest)) {[ -1 := Some first ]})).
Proof.
  intros Hp. unfold memeEditorReducer, state_of. cbn [textLayers].
  unfold Arr.findIndex. cbn [Arr.elems Arr.of_layers Arr.of_list].
  rewrite findIndex_absent, bind_Ok by done.
  rewrite length_layers. cbn [length].
  destruct (Z.ltb_spec (-1) (Z.of_nat (S (length rest)) - 1)); [|lia].
  reflexivity.
Qed.

End Moves.

Lemma move_up_cases b (ls : list Layer.t) sel n p :
  p ∈ ids ls ->
  ∃ ls',
    memeEditorReducer (state_of b ls sel n) (MOVE_LAYER_UP p) = Ok (state_of b ls' sel n)
    ∧ ls' ≡ₚ ls
    ∧ ((∃ pre layer, ls = pre ++ [layer] ∧ (p ∉ ids pre) ∧ Layer.id layer = p ∧ ls' = ls)
       ∨ (∃ pre layer above post,
            ls = pre ++ layer :: above :: post ∧ (p ∉ ids pre) ∧ Layer.id layer = p
            ∧ ls' = pre ++ above :: layer :: post)).
Proof.
  intros Hin.
  destruct (findIndex_layers p ls) as (k & _ & [[_ Hout]|(pre & layer & post & -> & Hpre & Hid & _)]);
    [done|].
  destruct post as [|above post].
  - exists (pre ++ [layer]). split_and!; [by apply reduce_move_up_top|done|].
    left. by exists pre, layer.
  - exists (pre ++ above :: layer :: post).
    split_and!; [by apply reduce_move_up_swap| |].
    + apply Permutation_app_head, perm_swap.
    + right. by exists pre, layer, above, post.
Qed.

Lemma move_down_cases b (ls : list Layer.t) sel n p :
  ∃ ls',
    memeEditorReducer (state_of b ls sel n) (MOVE_LAYER_DOWN p) = Ok (state_of b ls' sel n)
    ∧ ls' ≡ₚ ls
    ∧ ((p ∉ ids ls) ∧ ls' = ls
       ∨ (∃ layer post, ls = layer :: post ∧ Layer.id layer = p ∧ ls' = ls)
       ∨ (∃ pre below layer post,
            ls = pre ++ below :: layer :: post ∧ (p ∉ ids (pre ++ [below]))
            ∧ Layer.id layer = p ∧ ls' = pre ++ layer :: below :: post)).
Proof.
  destruct (findIndex_layers p ls) as (k & _ & [[_ Hout]|(pre & layer & post & -> & Hpre & Hid & _)]).
  - exists ls. split_and!; [by apply reduce_move_down_absent|done|by left].
  - destruct pre as [|below pre _] using rev_ind.
    + exists (layer :: post). split_and!; [by apply reduce_move_down_bottom|done|].
      right. left. by exists layer, post.
    + rewrite <- app_assoc. cbn [app].
      assert ((p ∉ ids pre) ∧ Layer.id below ≠ p) as [Hpre' Hbelow].
      { unfold ids in *. rewrite fmap_app in Hpre. split.
        - intros H. apply Hpre, elem_of_app. by left.
        - intros H. apply Hpre, elem_of_app. right. cbn. rewrite H.
          by apply list_elem_of_singleton. }
      exists (pre ++ layer :: below :: post).
      split_and!; [by apply reduce_move_down_swap| |].
      * apply Permutation_app_head, perm_swap.
      * right. right. by exists pre, below, layer, post.
Qed.

(** [MOVE_LAYER_UP] on the id of a present layer: the first layer with
    that id changes places with the layer right above it, or nothing
    happens when it is the last (topmost) one. The layers after the
    move are the same layers in another order; base image, selection and
    counter stay. *)
Theorem move_up_present_swaps_or_stays b (ls : list Layer.t) sel n p :
  p ∈ ids ls ->
  ∃ ls',
    memeEditorReducer (state_of b ls sel n) (MOVE_LAYER_UP p) = Ok (state_of b ls' sel n)
    ∧ ls' ≡ₚ ls
    ∧ ((∃ pre layer, ls = pre ++ [layer] ∧ (p ∉ ids pre) ∧ Layer.id layer = p ∧ ls' = ls)
       ∨ (∃ pre layer above post,
            ls = pre ++ layer :: above :: post ∧ (p ∉ ids pre) ∧ Layer.id layer = p
            ∧ ls' = pre ++ above :: layer :: post)).
Proof. apply move_up_cases. Qed.

Lemma move_up_present_swaps_or_stays_witness :
  ∃ ls',
    memeEditorReducer (state_of None [layer1; layer0] (Some 1) 3) (MOVE_LAYER_UP 1)
    = Ok (state_of None ls' (Some 1) 3)
    ∧ ls' ≡ₚ [layer1; layer0].
Proof.
  destruct (move_up_present_swaps_or_stays None [layer1; layer0] (Some 1) 3 1)
    as (ls' & H1 & H2 & _).
  - apply (bool_decide_unpack _). vm_compute. exact I.
  - exists ls'. split; [exact H1|exact H2].
Defined.

(** [MOVE_LAYER_DOWN] on any id: when no layer has the id, or the first
    layer with it is the first (bottommost) of the sequence, the state is
    returned as it is; otherwise that layer changes places with the layer
    right below it. In every case the layers are the same layers, and
    base image, selection and counter stay. *)
Theorem move_down_swaps_or_stays b (ls : list Layer.t) sel n p :
  ∃ ls',
    memeEditorReducer (state_of b ls sel n) (MOVE_LAYER_DOWN p) = Ok (state_of b ls' sel n)
    ∧ ls' ≡ₚ ls
    ∧ ((p ∉ ids ls) ∧ ls' = ls
       ∨ (∃ layer post, ls = layer :: post ∧ Layer.id layer = p ∧ ls' = ls)
       ∨ (∃ pre below layer post,
            ls = pre ++ below :: layer :: post ∧ (p ∉ ids (pre ++ [below]))
            ∧ Layer.id layer = p ∧ ls' = pre ++ layer :: below :: post)).
Proof. apply move_down_cases. Qed.

(** [MOVE_LAYER_UP] on an id no layer has. Without layers the state is
    returned as it is. With layers, the first slot of the array becomes
    [undefined], the first layer is kept under the property [-1] only,
    and on the returned state every [UPDATE_TEXT_LAYER],
    [DELETE_TEXT_LAYER], [MOVE_LAYER_UP] and [MOVE_LAYER_DOWN] throws,
    whatever its payload. *)
Theorem move_up_absent_id b (ls : list Layer.t) sel n p :
  p ∉ ids ls ->
  match ls with
  | [] => memeEditorReducer (state_of b ls sel n) (MOVE_LAYER_UP p) = Ok (state_of b ls sel n)
  | first :: rest =>
      let broken :=
        with_layers (state_of b ls sel n)
          (Arr.mk (None :: (Some <$> rest)) {[ -1 := Some first ]}) in
      memeEditorReducer (state_of b ls sel n) (MOVE_LAYER_UP p) = Ok broken
      ∧ (∀ q u, memeEditorReducer broken (UPDATE_TEXT_LAYER q u) = TypeError)
      ∧ (∀ q, memeEditorReducer broken (DELETE_TEXT_LAYER q) = TypeError)
      ∧ (∀ q, memeEditorReducer broken (MOVE_LAYER_UP q) = TypeError)
      ∧ (∀ q, memeEditorReducer broken (MOVE_LAYER_DOWN q) = TypeError)
  end.
Proof.
  intros Hp. destruct ls as [|first rest]; [done|].
  split_and!; [by apply reduce_move_up_absent|done..].
Qed.

Lemma move_up_absent_id_witness :
  memeEditorReducer one_layer (MOVE_LAYER_UP 5)
  = Ok (with_layers one_layer (Arr.mk [None] {[ -1 := Some layer1 ]})).
Proof.
  pose proof (move_up_absent_id (Some "img1") [layer1] (Some 1) 2 5) as H.
  cbn beta iota zeta in H. apply H.
  apply (bool_decide_unpack _). vm_compute. exact I.
Defined.

(** [MOVE_LAYER_DOWN] and then [MOVE_LAYER_UP] on the same id, for a
    layer that is not the first of a sequence with pairwise distinct ids:
    the original state is returned. *)
Theorem move_down_then_up_restores b (ls : list Layer.t) sel n id (i : nat) :
  NoDup (ids ls) ->
  ids ls !! S i = Some id ->
  ∃ moved,
    memeEditorReducer (state_of b ls sel n) (MOVE_LAYER_DOWN id) = Ok (state_of b moved sel n)
    ∧ moved !! i = ls !! S i ∧ moved !! S i = ls !! i
    ∧ memeEditorReducer (state_of b moved sel n) (MOVE_LAYER_UP id)
      = Ok (state_of b ls sel n).
Proof.
  intros Hnd Hi. unfold ids in Hi. rewrite list_lookup_fmap in Hi.
  destruct (ls !! S i) as [layer|] eqn:Hl; [|done]. cbn in Hi. injection Hi as Hid.
  destruct (ls !! i) as [below|] eqn:Hb;
    [|apply lookup_ge_None in Hb; apply lookup_lt_Some in Hl; lia].
  pose proof (take_drop_middle ls i below Hb) as Hsplit.
  assert (drop (S i) ls = layer :: drop (S (S i)) ls) as Hdrop by (by apply drop_S).
  rewrite Hdrop in Hsplit.
  set (pre := take i ls) in *. set (post := drop (S (S i)) ls) in *.
  assert (length pre = i) as Hpre.
  { unfold pre. rewrite length_take. apply lookup_lt_Some in Hb. lia. }
  rewrite <- Hsplit in Hnd. unfold ids in Hnd. rewrite fmap_app in Hnd. cbn in Hnd.
  apply NoDup_app in Hnd as (_ & Hdisj & Hnd2).
  apply NoDup_cons in Hnd2 as [Hnotin _].
  assert (id ∉ ids pre) as Hout.
  { intros Hin. apply (Hdisj _ Hin). rewrite Hid. apply elem_of_cons. right.
    apply elem_of_cons. by left. }
  assert (Layer.id below ≠ id) as Hne.
  { intros E. apply Hnotin. rewrite E, <- Hid. apply elem_of_cons. by left. }
  exists (pre ++ layer :: below :: post).
  pose proof (reduce_move_down_swap b sel n pre below layer post id Hout Hne Hid) as Hdown.
  pose proof (reduce_move_up_swap b sel n pre layer below post id Hout Hid) as Hup.
  rewrite Hsplit in Hdown, Hup. split_and!; [done| | |done].
  - by apply list_lookup_middle.
  - rewrite <- Hpre. apply lookup_second.
Qed.

Lemma move_down_then_up_restores_witness :
  ∃ moved,
    memeEditorReducer (state_of None [layer1; layer0] (Some 1) 3) (MOVE_LAYER_DOWN 0)
    = Ok (state_of None moved (Some 1) 3)
    ∧ memeEditorReducer (state_of None moved (Some 1) 3) (MOVE_LAYER_UP 0)
      = Ok (state_of None [layer1; layer0] (Some 1) 3).
Proof.
  destruct (move_down_then_up_restores None [layer1; layer0] (Some 1) 3 0 0)
    as (moved & H1 & _ & _ & H2).
  - apply (bool_decide_unpack _). vm_compute. exact I.
  - reflexivity.
  - exists moved. split; [exact H1|exact H2].
Defined.

(** ** Well-formed editors are kept *)

Lemma editor_ok_layers b (ls : list Layer.t) sel n :
  editor_ok (state_of b ls sel n)
  <-> NoDup (ids ls) ∧ Forall (fun i => 1 ≤ i < n) (ids ls) ∧ 1 ≤ n
      ∧ match sel with None => True | Some i => i ∈ ids ls end.
Proof.
  unfold editor_ok. rewrite <- selection_consistent_layers. cbn. split.
  - intros (ls' & E & H). assert (ls' = ls) as ->; [|done].
    apply (f_equal Arr.elems) in E. cbn in E.
    by apply (inj (fmap Some)) in E.
  - intros H. by exists ls.
Qed.

Lemma ids_update_no_id (ls : list Layer.t) id u :
  Layer.u_id u = None ->
  ids ((fun layer => if Layer.id layer =? id then Layer.spread layer u else layer) <$> ls)
  = ids ls.
Proof.
  intros Hu. unfold ids. rewrite <- list_fmap_compose. apply list_fmap_ext.
  intros i layer _. cbn. destruct (Layer.id layer =? id); [|done].
  cbn. by rewrite Hu.
Qed.

Lemma ids_remaining p (ls : list Layer.t) :
  ids (List.filter (fun layer => negb (Layer.id layer =? p)) ls)
  = List.filter (fun i => negb (i =? p)) (ids ls).
Proof.
  unfold ids. induction ls as [|layer ls IH]; [done|]. cbn.
  destruct (Layer.id layer =? p); cbn; by rewrite IH.
Qed.

Lemma elem_of_ids_remaining p (ls : list Layer.t) i :
  i ∈ ids (List.filter (fun layer => negb (Layer.id layer =? p)) ls)
  <-> i ∈ ids ls ∧ i ≠ p.
Proof.
  rewrite ids_remaining, !list_elem_of_In, filter_In, negb_true_iff, Z.eqb_neq. done.
Qed.

Lemma NoDup_ids_remaining p (ls : list Layer.t) :
  NoDup (ids ls) -> NoDup (ids (List.filter (fun layer => negb (Layer.id layer =? p)) ls)).
Proof.
  rewrite ids_remaining. intros H. apply NoDup_ListNoDup.
  apply List.NoDup_filter. by apply NoDup_ListNoDup.
Qed.

Lemma editor_ok_preserved (state : EditorState) (action : Action) :
  editor_ok state -> admissible state action ->
  ∃ state', memeEditorReducer state action = Ok state' ∧ editor_ok state'.
Proof.
  intros Hst Hadm. pose proof Hst as (ls & E & _).
  destruct state as [b a sel n]. cbn in E. subst a.
  change (mkState b (Arr.of_layers ls) sel n) with (state_of b ls sel n) in *.
  apply editor_ok_layers in Hst as (Hnd & Hrange & Hn & Hsel).
  destruct action as [u| |id u|p|[i|]|p|p| |ty].
  - exists (state_of u [] None n). split; [done|].
    apply editor_ok_layers. split_and!; [constructor|constructor|done|done].
  - exists (state_of b (ls ++ [newLayer (state_of b ls sel n)]) (Some n) (n + 1)). split.
    + unfold memeEditorReducer, state_of, Arr.of_layers. cbn. by rewrite fmap_app.
    + apply editor_ok_layers. unfold ids. rewrite fmap_app. cbn. split_and!.
      * apply NoDup_app. split_and!; [done| |apply NoDup_singleton].
        intros i Hi [= ->]%list_elem_of_singleton.
        rewrite Forall_forall in Hrange. specialize (Hrange _ Hi). lia.
      * apply Forall_app. split.
        -- eapply Forall_impl; [exact Hrange|]. cbn. intros; lia.
        -- constructor; [lia|constructor].
      * lia.
      * apply elem_of_app. right. by apply list_elem_of_singleton.
  - cbn in Hadm. rewrite reduce_update. eexists. split; [done|].
    apply editor_ok_layers. by rewrite ids_update_no_id.
  - rewrite reduce_delete. cbn zeta. eexists. split; [done|].
    apply editor_ok_layers. split_and!; [by apply NoDup_ids_remaining| |done|].
    + rewrite Forall_forall in Hrange |- *. intros i [Hi _]%elem_of_ids_remaining. auto.
    + destruct (selected_is sel p) eqn:Es.
      * destruct (List.filter _ ls) as [|first rest] eqn:F; cbn; [done|].
        destruct (Layer.id first =? 0); [done|]. cbn. apply elem_of_cons. by left.
      * destruct sel as [i|]; [|done]. cbn in Es. apply Z.eqb_neq in Es.
        by apply elem_of_ids_remaining.
  - cbn in Hadm. apply has_layer_layers in Hadm.
    exists (state_of b ls (Some i) n). split; [done|]. by apply editor_ok_layers.
  - exists (state_of b ls None n). split; [done|]. by apply editor_ok_layers.
  - cbn in Hadm. apply has_layer_layers in Hadm.
    destruct (move_up_cases b ls sel n p Hadm) as (ls' & Hred & Hperm & _).
    exists (state_of b ls' sel n). split; [done|]. apply editor_ok_layers.
    assert (ids ls' ≡ₚ ids ls) as Hids by (unfold ids; by rewrite Hperm).
    rewrite Hids. split_and!; try done. destruct sel; [|done]. by rewrite Hids.
  - destruct (move_down_cases b ls sel n p) as (ls' & Hred & Hperm & _).
    exists (state_of b ls' sel n). split; [done|]. apply editor_ok_layers.
    assert (ids ls' ≡ₚ ids ls) as Hids by (unfold ids; by rewrite Hperm).
    rewrite Hids. split_and!; try done. destruct sel; [|done]. by rewrite Hids.
  - exists initialState. split; [done|].
    apply (editor_ok_layers None [] None 1). split_and!; [constructor|constructor|done|done].
  - exists (state_of b ls sel n). split; [done|]. by apply editor_ok_layers.
Qed.

(** From a well-formed editor every admissible action returns a
    well-formed editor: the reducer does not throw, every slot still
    holds a layer, the ids stay pairwise distinct and between 1 and the
    counter, and the selection stays [null] or a present id. *)
Theorem editor_ok_step (state : EditorState) (action : Action) :
  editor_ok state -> admissible state action ->
  ∃ state', memeEditorReducer state action = Ok state' ∧ editor_ok state'.
Proof. apply editor_ok_preserved. Qed.

Lemma editor_ok_step_witness :
  ∃ state', memeEditorReducer one_layer (MOVE_LAYER_UP 1) = Ok state' ∧ editor_ok state'.
Proof.
  apply editor_ok_step.
  - apply editor_ok_layers. split_and!.
    + apply (bool_decide_unpack _). vm_compute. exact I.
    + apply (bool_decide_unpack _). vm_compute. exact I.
    + lia.
    + apply (bool_decide_unpack _). vm_compute. exact I.
  - apply has_layer_layers. apply (bool_decide_unpack _). vm_compute. exact I.
Defined.

(** ** When the reducer throws *)

Lemma undefined_or_layers (l : list slot) :
  None ∈ l ∨ ∃ ls : list Layer.t, l = Some <$> ls.
Proof.
  induction l as [|[layer|] l IH].
  - right. by exists [].
  - destruct IH as [H|[ls ->]].
    + left. apply elem_of_cons. by right.
    + right. by exists (layer :: ls).
  - left. apply elem_of_cons. by left.
Qed.

(** The reducer throws only on a layer array with an [undefined] slot:
    whatever else the array carries, a transition on an array whose slots
    all hold layers returns a state. *)
Theorem throws_only_on_undefined_slot (state : EditorState) (action : Action) :
  memeEditorReducer state action = TypeError ->
  None ∈ Arr.elems (textLayers state).
Proof.
  intros Hthrow.
  destruct (undefined_or_layers (Arr.elems (textLayers state))) as [|[ls Hls]]; [done|].
  exfalso.
  destruct action as [u| |id u|p|i|p|p| |ty]; cbn in Hthrow; try discriminate.
  - unfold Arr.map in Hthrow. rewrite Hls in Hthrow.
    erewrite (map_elems_layers
                (fun layer => Some (if Layer.id layer =? id then Layer.spread layer u else layer)))
      in Hthrow; [|done]. discriminate.
  - pose proof (filter_layers p ls) as F. unfold Arr.filter in F |- *.
    unfold Arr.filter in Hthrow. rewrite Hls in Hthrow. cbn in F.
    destruct (Arr.filter_elems _ _); discriminate.
  - destruct (findIndex_from_layers p ls 0) as (k & Hk & _).
    unfold Arr.findIndex in Hthrow. rewrite Hls, Hk in Hthrow. cbn in Hthrow.
    destruct (k <? _); discriminate.
  - destruct (findIndex_from_layers p ls 0) as (k & Hk & _).
    unfold Arr.findIndex in Hthrow. rewrite Hls, Hk in Hthrow. cbn in Hthrow.
    destruct (0 <? k); discriminate.
Qed.

Lemma throws_only_on_undefined_slot_witness :
  None ∈ Arr.elems
           (textLayers (with_layers one_layer (Arr.mk [None] {[ -1 := Some layer1 ]}))).
Proof.
  apply (throws_only_on_undefined_slot _ (DELETE_TEXT_LAYER 1)). reflexivity.
Defined.

(** ** Updates and deletions repeated *)

Lemma spread_idem layer u : Layer.spread (Layer.spread layer u) u = Layer.spread layer u.
Proof.
  destruct u. unfold Layer.spread. cbn. f_equal;
    match goal with |- default (default _ ?o) ?o = _ => by destruct o end.
Qed.

(** The same [UPDATE_TEXT_LAYER] dispatched a second time changes
    nothing, for every id and every patch (a patch with an [id] key
    included). *)
Theorem update_twice_is_once b (ls : list Layer.t) sel n id u :
  ∃ once,
    memeEditorReducer (state_of b ls sel n) (UPDATE_TEXT_LAYER id u) = Ok once
    ∧ memeEditorReducer once (UPDATE_TEXT_LAYER id u) = Ok once.
Proof.
  eexists. split; [apply reduce_update|]. rewrite reduce_update. do 2 f_equal.
  rewrite <- list_fmap_compose. apply list_fmap_ext. intros i layer _. cbn.
  destruct (Z.eqb_spec (Layer.id layer) id) as [E|NE].
  - destruct (Layer.id (Layer.spread layer u) =? id); [apply spread_idem|done].
  - by destruct (Z.eqb_spec (Layer.id layer) id).
Qed.

(** The same [DELETE_TEXT_LAYER] dispatched a second time changes
    nothing: the layers with the id are gone and the selection, if it
    moved, moved to another id. *)
Theorem delete_twice_is_once b (ls : list Layer.t) sel n p :
  ∃ once,
    memeEditorReducer (state_of b ls sel n) (DELETE_TEXT_LAYER p) = Ok once
    ∧ (p ∉ ids (List.filter (fun layer => negb (Layer.id layer =? p)) ls))
    ∧ memeEditorReducer once (DELETE_TEXT_LAYER p) = Ok once.
Proof.
  assert (p ∉ ids (List.filter (fun layer => negb (Layer.id layer =? p)) ls)) as Hgone.
  { intros [_ H]%elem_of_ids_remaining. done. }
  eexists. split; [apply reduce_delete|]. split; [done|].
  rewrite reduce_delete. cbn zeta. rewrite filter_absent by done.
  do 2 f_equal.
  destruct (selected_is sel p) eqn:Es.
  - destruct (List.filter _ ls) as [|first rest] eqn:F; cbn; [done|].
    destruct (Layer.id first =? 0) eqn:E0; cbn; [done|].
    by destruct (Layer.id first =? p).
  - by rewrite Es.
Qed.

(** ** Selections and ids the reducer does not check *)

(** [SELECT_LAYER] stores its payload unchecked. Selecting an id no layer
    has leaves a selection that matches no layer; deleting that id next
    removes nothing, yet moves the selection to the first layer (to
    [null] when there is none, or when that layer's id is 0). *)
Theorem select_absent_then_delete b (ls : list Layer.t) sel n p :
  p ∉ ids ls ->
  memeEditorReducer (state_of b ls sel n) (SELECT_LAYER (Some p)) = Ok (state_of b ls (Some p) n)
  ∧ ¬ selection_consistent (state_of b ls (Some p) n)
  ∧ memeEditorReducer (state_of b ls (Some p) n) (DELETE_TEXT_LAYER p)
    = Ok (state_of b ls (id_or_null (head ls)) n).
Proof.
  intros Hp. split_and!; [done| |].
  - by rewrite selection_consistent_layers.
  - rewrite reduce_delete. cbn. rewrite Z.eqb_refl, filter_absent by done. done.
Qed.

Lemma select_absent_then_delete_witness :
  memeEditorReducer (state_of (Some "img1") [layer1] (Some 9) 2) (DELETE_TEXT_LAYER 9)
  = Ok one_layer.
Proof.
  destruct (select_absent_then_delete (Some "img1") [layer1] (Some 1) 2 9) as (_ & _ & H).
  - apply (bool_decide_unpack _). vm_compute. exact I.
  - exact H.
Defined.

(** [UPDATE_TEXT_LAYER] merges an [id] key like any other: with a patch
    carrying another id [j], no layer has the old id afterwards and a
    layer has [j]; a selection on the old id then matches no layer, and
    if [j] was already the id of a layer the ids are no longer distinct. *)
Theorem update_with_id_key_renames b (ls : list Layer.t) sel n id u j :
  Layer.u_id u = Some j -> j ≠ id -> id ∈ ids ls ->
  ∃ ls',
    memeEditorReducer (state_of b ls sel n) (UPDATE_TEXT_LAYER id u) = Ok (state_of b ls' sel n)
    ∧ (id ∉ ids ls') ∧ j ∈ ids ls'
    ∧ (sel = Some id -> ¬ selection_consistent (state_of b ls' sel n))
    ∧ (j ∈ ids ls -> ¬ NoDup (ids ls')).
Proof.
  intros Hu Hj Hin. eexists. split; [apply reduce_update|].
  set (f := fun layer => if Layer.id layer =? id then Layer.spread layer u else layer).
  assert (∀ layer, Layer.id (f layer) = if Layer.id layer =? id then j else Layer.id layer)
    as Hf.
  { intros layer. unfold f. destruct (Layer.id layer =? id); [|done]. cbn. by rewrite Hu. }
  assert (id ∉ ids (f <$> ls)) as Hgone.
  { unfold ids. rewrite <- list_fmap_compose. intros (layer & E & _)%list_elem_of_fmap.
    cbn in E. rewrite Hf in E. destruct (Z.eqb_spec (Layer.id layer) id); congruence. }
  split_and!.
  - done.
  - unfold ids in *. apply list_elem_of_fmap in Hin as (layer & E & Hl).
    rewrite <- list_fmap_compose. apply list_elem_of_fmap. exists layer. split; [|done].
    cbn. rewrite Hf, <- E, Z.eqb_refl. done.
  - intros ->. by rewrite selection_consistent_layers.
  - intros Hjin Hnd. unfold ids in Hin, Hjin.
    apply list_elem_of_fmap in Hin as (l1 & E1 & Hl1).
    apply list_elem_of_fmap in Hjin as (l2 & E2 & Hl2).
    apply list_elem_of_lookup in Hl1 as [i1 Hi1]. apply list_elem_of_lookup in Hl2 as [i2 Hi2].
    assert (ids (f <$> ls) !! i1 = Some j) as H1.
    { unfold ids. rewrite !list_lookup_fmap, Hi1. cbn. rewrite Hf, <- E1, Z.eqb_refl. done. }
    assert (ids (f <$> ls) !! i2 = Some j) as H2.
    { unfold ids. rewrite !list_lookup_fmap, Hi2. cbn. rewrite Hf, <- E2.
      destruct (Z.eqb_spec j id); [done|done]. }
    pose proof (NoDup_lookup _ _ _ _ Hnd H1 H2) as ->.
    rewrite Hi1 in Hi2. injection Hi2 as ->. congruence.
Qed.

Lemma update_with_id_key_renames_witness :
  ∃ ls',
    memeEditorReducer (state_of None [layer1; layer0] (Some 1) 3)
      (UPDATE_TEXT_LAYER 1 (only_id 0))
    = Ok (state_of None ls' (Some 1) 3)
    ∧ ¬ selection_consistent (state_of None ls' (Some 1) 3)
    ∧ ¬ NoDup (ids ls').
Proof.
  destruct (update_with_id_key_renames None [layer1; layer0] (Some 1) 3 1 (only_id 0) 0)
    as (ls' & H1 & _ & _ & H2 & H3).
  - reflexivity.
  - lia.
  - apply (bool_decide_unpack _). vm_compute. exact I.
  - exists ls'. split_and!; [exact H1|exact (H2 eq_refl)|].
    apply H3. apply (bool_decide_unpack _). vm_compute. exact I.
Defined.

(** ** Deleting the selected layer, adding and deleting *)



(** Adding a layer and deleting it at once, in an editor whose ids lie
    between 1 and the counter: the layers are those before the two
    steps, but the counter has moved on by one and the selection is on
    the first layer (none when there is no layer), whatever was selected
    before. *)
Theorem add_then_delete b (ls : list Layer.t) sel n :
  Forall (fun i => 1 ≤ i < n) (ids ls) ->
  run (state_of b ls sel n) [ADD_TEXT_LAYER; DELETE_TEXT_LAYER n]
  = Ok (state_of b ls (Layer.id <$> head ls) (n + 1)).
Proof.
  intros Hrange. cbn [run].
  assert (memeEditorReducer (state_of b ls sel n) ADD_TEXT_LAYER
          = Ok (state_of b (ls ++ [newLayer (state_of b ls sel n)]) (Some n) (n + 1))) as ->.
  { unfold memeEditorReducer, state_of, Arr.of_layers. cbn. by rewrite fmap_app. }
  rewrite bind_Ok, reduce_delete, bind_Ok. cbn zeta.
  assert (n ∉ ids ls) as Hout.
  { intros Hin. rewrite Forall_forall in Hrange. specialize (Hrange _ Hin). lia. }
  rewrite List.filter_app, filter_absent by done. cbn. rewrite Z.eqb_refl. cbn.
  rewrite app_nil_r. do 2 f_equal.
  destruct ls as [|first rest]; [done|]. cbn.
  apply Forall_cons in Hrange as [H1 _]. cbn in H1.
  destruct (Z.eqb_spec (Layer.id first) 0); [lia|done].
Qed.

Lemma add_then_delete_witness :
  run one_layer [ADD_TEXT_LAYER; DELETE_TEXT_LAYER 2]
  = Ok (state_of (Some "img1") [layer1] (Some 1) 3).
Proof.
  apply (add_then_delete (Some "img1") [layer1] (Some 1) 2).
  apply (bool_decide_unpack _). vm_compute. exact I.
Defined.

(** * The canvas handlers *)

Section CanvasHandlers.

Import Canvas.

Lemma find_layers v (ls : list Layer.t) :
  Arr.find (has_id_of v) (Arr.of_layers ls)
  = Ok (List.find (fun layer => selected_is v (Layer.id layer)) ls).
Proof.
  unfold Arr.find. cbn [Arr.elems Arr.of_layers Arr.of_list].
  induction ls as [|layer ls IH]; [done|]. cbn.
  destruct (selected_is v (Layer.id layer)); [done|]. apply IH.
Qed.

Lemma same_id_same_layer (ls : list Layer.t) l1 l2 :
  NoDup (ids ls) -> l1 ∈ ls -> l2 ∈ ls -> Layer.id l1 = Layer.id l2 -> l1 = l2.
Proof.
  intros Hnd [i1 H1]%list_elem_of_lookup [i2 H2]%list_elem_of_lookup E.
  assert (ids ls !! i1 = Some (Layer.id l1)) as G1
    by (unfold ids; by rewrite list_lookup_fmap, H1).
  assert (ids ls !! i2 = Some (Layer.id l1)) as G2
    by (unfold ids; by rewrite list_lookup_fmap, H2, E).
  pose proof (NoDup_lookup _ _ _ _ Hnd G1 G2) as ->. congruence.
Qed.

Lemma hit_spec_elem_of (ls : list Layer.t) px py layer :
  hit_spec ls px py = Some layer -> layer ∈ ls.
Proof.
  intros H. pose proof (find_from_top px py ls) as F. rewrite H in F.
  destruct F as (below & above & -> & _). apply elem_of_app. right.
  apply elem_of_cons. by left.
Qed.

Lemma find_first_with_id (ls : list Layer.t) layer :
  NoDup (ids ls) -> layer ∈ ls ->
  List.find (fun l => selected_is (Some (Layer.id layer)) (Layer.id l)) ls = Some layer.
Proof.
  intros Hnd Hin.
  destruct (List.find _ ls) as [found|] eqn:F.
  - apply find_some in F as [Hf E]. cbn in E. apply Z.eqb_eq in E.
    f_equal. apply (same_id_same_layer ls); [done|by apply list_elem_of_In|done|done].
  - apply list_elem_of_In in Hin. pose proof (find_none _ _ F _ Hin) as E.
    cbn in E. by rewrite Z.eqb_refl in E.
Qed.

End CanvasHandlers.



(** A pointer move during a drag, wherever the drag started: every layer
    with the dragged id gets coordinates that are not negative and keeps
    all its other fields; every other layer, the selection, the counter
    and the component's own state are unchanged. *)
Theorem move_clamps_position b (ls : list Layer.t) sel n loc rect e id :
  Canvas.dragging loc = Some id -> id ≠ 0 ->
  ∃ ls',
    Canvas.handleMouseMove rect e (Canvas.mkApp (state_of b ls sel n) loc)
    = Ok (Canvas.mkApp (state_of b ls' sel n) loc)
    ∧ length ls' = length ls
    ∧ (∀ (i : nat) layer, ls !! i = Some layer ->
         ∃ layer', ls' !! i = Some layer'
           ∧ (Layer.id layer = id ->
              ∃ px py, 0 ≤ px ∧ 0 ≤ py
                       ∧ Layer.merged (Canvas.position px py) layer' layer)
           ∧ (Layer.id layer ≠ id -> layer' = layer)).
Proof.
  intros Hdrag Hid. unfold Canvas.handleMouseMove. cbn [Canvas.local]. rewrite Hdrag.
  destruct (Z.eqb_spec id 0) as [|_]; [done|].
  unfold Canvas.dispatch. cbn [Canvas.editor Canvas.local].
  rewrite reduce_update, bind_Ok. eexists. split; [reflexivity|]. split.
  - by rewrite length_fmap.
  - intros i layer Hl. rewrite list_lookup_fmap, Hl. cbn. eexists. split; [done|].
    destruct (Z.eqb_spec (Layer.id layer) id) as [E|NE]; split; try done.
    intros _. do 2 eexists. split_and!; [| |apply spread_merged]; lia.
Qed.

Lemma move_clamps_position_witness :
  ∃ ls',
    Canvas.handleMouseMove (Canvas.Build_DOMRect 400 400) (Canvas.Build_MouseEvent 3 5)
      (Canvas.mkApp one_layer (Canvas.mkLocal (Some 1) None (7, 7) None))
    = Ok (Canvas.mkApp (state_of (Some "img1") ls' (Some 1) 2)
            (Canvas.mkLocal (Some 1) None (7, 7) None))
    ∧ length ls' = 1%nat.
Proof.
  destruct (move_clamps_position (Some "img1") [layer1] (Some 1) 2
              (Canvas.mkLocal (Some 1) None (7, 7) None)
              (Canvas.Build_DOMRect 400 400) (Canvas.Build_MouseEvent 3 5) 1)
    as (ls' & H1 & H2 & _).
  - reflexivity.
  - lia.
  - exists ls'. split; [exact H1|exact H2].
Defined.

(** A layer with id 0 is selected by a press but not dragged: the drag
    state holds the falsy [0], and the pointer move that follows returns
    without an update, whatever the pointer does. *)
Theorem zero_id_layer_not_dragged b (ls : list Layer.t) sel n loc rect e rect' e' layer :
  Canvas.hit_spec ls (Canvas.clientX e - Canvas.left rect) (Canvas.clientY e - Canvas.top rect)
  = Some layer ->
  Layer.id layer = 0 ->
  ∃ pressed,
    Canvas.handleMouseDown rect e (Canvas.mkApp (state_of b ls sel n) loc) = Ok pressed
    ∧ Canvas.editor pressed = state_of b ls (Some 0) n
    ∧ Canvas.dragging (Canvas.local pressed) = Some 0
    ∧ Canvas.handleMouseMove rect' e' pressed = Ok pressed.
Proof.
  intros Hhit Hid.
  exists (Canvas.mkApp (state_of b ls (Some 0) n)
            (Canvas.mkLocal (Some 0) (Canvas.resizing loc)
               (Canvas.clientX e - Canvas.left rect - Layer.x layer,
                Canvas.clientY e - Canvas.top rect - Layer.y layer)
               (Canvas.editingLayer loc))).
  split_and!; [|done..].
  unfold Canvas.handleMouseDown. cbn [Canvas.editor textLayers state_of].
  rewrite hit_test_layers, bind_Ok, Hhit, Hid. reflexivity.
Qed.

Lemma zero_id_layer_not_dragged_witness :
  ∃ pressed,
    Canvas.handleMouseDown (Canvas.Build_DOMRect 0 0) (Canvas.Build_MouseEvent 60 60)
      (Canvas.mkApp (state_of None [layer0] None 3) (Canvas.mkLocal None None (0, 0) None))
    = Ok pressed
    ∧ Canvas.handleMouseMove (Canvas.Build_DOMRect 0 0) (Canvas.Build_MouseEvent 200 200)
        pressed = Ok pressed.
Proof.
  destruct (zero_id_layer_not_dragged None [layer0] None 3
              (Canvas.mkLocal None None (0, 0) None)
              (Canvas.Build_DOMRect 0 0) (Canvas.Build_MouseEvent 60 60)
              (Canvas.Build_DOMRect 0 0) (Canvas.Build_MouseEvent 200 200) layer0)
    as (pressed & H1 & _ & _ & H2).
  - reflexivity.
  - reflexivity.
  - exists pressed. split; [exact H1|exact H2].
Defined.

(** Opening the edit modal by a double click on a layer (of non-zero id)
    and saving: the double click leaves the editor as it is and shows the
    modal, pre-filled with the text of the layer hit when ids are
    distinct; saving gives the new text to the layers with that id and
    to no other, and closes the modal; cancelling closes it and changes
    nothing else. *)
Theorem double_click_then_save b (ls : list Layer.t) sel n loc rect e layer value :
  let x := Canvas.clientX e - Canvas.left rect in
  let y := Canvas.clientY e - Canvas.top rect in
  let app := Canvas.mkApp (state_of b ls sel n) loc in
  let retext := fun other =>
    if Layer.id other =? Layer.id layer
    then Layer.spread other (Canvas.only_text value) else other in
  Payload.falsy b = false ->
  Canvas.hit_spec ls x y = Some layer ->
  Layer.id layer ≠ 0 ->
  let opened := Canvas.setEditingLayer (Some (Layer.id layer)) app in
  Ui.on_event app (Ui.DoubleClick rect e) = Ok opened
  ∧ Canvas.modal_shown opened = true
  ∧ (NoDup (ids ls) -> Canvas.modal_defaultValue opened = Ok (Layer.text layer))
  ∧ Ui.on_event opened (Ui.ModalSave value)
    = Ok (Canvas.setEditingLayer None
            (Canvas.mkApp (state_of b (retext <$> ls) sel n) loc))
  ∧ Ui.on_event opened (Ui.ModalEnter value) = Ui.on_event opened (Ui.ModalSave value)
  ∧ Ui.on_event opened Ui.ModalCancel = Ok (Canvas.setEditingLayer None app).
Proof.
  intros x y app retext Hb Hhit Hid opened.
  assert (Ui.canvas_shown app = true) as Hshown by (unfold Ui.canvas_shown; cbn; by rewrite Hb).
  assert ((Layer.id layer =? 0) = false) as Hz by (by apply Z.eqb_neq).
  split_and!.
  - cbn [Ui.on_event]. rewrite Hshown. unfold Canvas.handleDoubleClick.
    cbn [Canvas.editor app textLayers state_of]. fold x y.
    by rewrite hit_test_layers, bind_Ok, Hhit.
  - unfold Canvas.modal_shown. cbn. by rewrite Hz.
  - intros Hnd. unfold Canvas.modal_defaultValue.
    cbn [opened Canvas.setEditingLayer Canvas.local Canvas.editor Canvas.editingLayer app
         textLayers state_of].
    rewrite find_layers, bind_Ok, find_first_with_id; [done|done|].
    by eapply hit_spec_elem_of.
  - cbn [Ui.on_event]. unfold Ui.on_modal.
    cbn [opened Canvas.setEditingLayer Canvas.local Canvas.editingLayer]. rewrite Hz.
    unfold Canvas.handleTextEdit, Canvas.dispatch.
    change (Canvas.editor opened) with (state_of b ls sel n).
    by rewrite reduce_update, !bind_Ok.
  - done.
  - cbn [Ui.on_event]. unfold Ui.on_modal. cbn. by rewrite Hz.
Qed.

Lemma double_click_then_save_witness :
  let app := Canvas.mkApp one_layer (Canvas.mkLocal None None (0, 0) None) in
  let opened := Canvas.setEditingLayer (Some 1) app in
  Ui.on_event app (Ui.DoubleClick (Canvas.Build_DOMRect 0 0) (Canvas.Build_MouseEvent 60 60))
  = Ok opened
  ∧ Canvas.modal_defaultValue opened = Ok "Double click to edit".
Proof.
  destruct (double_click_then_save (Some "img1") [layer1] (Some 1) 2
              (Canvas.mkLocal None None (0, 0) None)
              (Canvas.Build_DOMRect 0 0) (Canvas.Build_MouseEvent 60 60) layer1 "hello")
    as (H1 & _ & H2 & _).
  - reflexivity.
  - reflexivity.
  - cbn. lia.
  - split; [exact H1|]. apply H2.
    apply (bool_decide_unpack _). vm_compute. exact I.
Defined.

(** * The application as a whole *)

Section UiInvariant.

Import Canvas Ui.

Lemma control_updates_no_id c : Layer.u_id (RightPanel.control_updates c) = None.
Proof. by destruct c. Qed.

(** What an action the interface dispatches does to "layers only over a
    base image". *)
Lemma base_image_kept b (ls : list Layer.t) sel n action state' :
  (ls ≠ [] -> Payload.falsy b = false) ->
  admissible (state_of b ls sel n) action ->
  (action = ADD_TEXT_LAYER -> Payload.falsy b = false) ->
  memeEditorReducer (state_of b ls sel n) action = Ok state' ->
  Arr.elems (textLayers state') ≠ [] -> Payload.falsy (baseImage state') = false.
Proof.
  intros Hbase Hadm Hadd Hred.
  destruct action as [u| |id u|p|i|p|p| |ty].
  - injection Hred as <-. done.
  - injection Hred as <-. cbn. auto.
  - rewrite reduce_update in Hred. injection Hred as <-. cbn.
    intros H. apply Hbase. by intros ->.
  - rewrite reduce_delete in Hred. injection Hred as <-. cbn.
    intros H. apply Hbase. by intros ->.
  - injection Hred as <-. cbn. intros H. apply Hbase. by intros ->.
  - cbn in Hadm. apply has_layer_layers in Hadm.
    destruct (move_up_cases b ls sel n p Hadm) as (ls' & E & Hperm & _).
    rewrite E in Hred. injection Hred as <-. cbn.
    intros H. apply Hbase. intros ->. apply Permutation_nil_r in Hperm. by subst.
  - destruct (move_down_cases b ls sel n p) as (ls' & E & Hperm & _).
    rewrite E in Hred. injection Hred as <-. cbn.
    intros H. apply Hbase. intros ->. apply Permutation_nil_r in Hperm. by subst.
  - injection Hred as <-. done.
  - injection Hred as <-. cbn. intros H. apply Hbase. by intros ->.
Qed.

Lemma app_ok_reduced app action state' loc' :
  app_ok app ->
  admissible (editor app) action ->
  (action = ADD_TEXT_LAYER -> canvas_shown app = true) ->
  memeEditorReducer (editor app) action = Ok state' ->
  app_ok (mkApp state' loc').
Proof.
  intros [Hok Hbase] Hadm Hadd Hred. split.
  - destruct (editor_ok_preserved _ _ Hok Hadm) as (s & E & Hs).
    rewrite Hred in E. by injection E as <-.
  - cbn [editor]. pose proof Hok as (ls & E & _).
    destruct app as [[b a sel n] loc]. cbn in *. subst a.
    apply (base_image_kept b ls sel n action); try done.
    + intros H. apply Hbase. by destruct ls.
    + intros ->. unfold canvas_shown in Hadd. cbn in Hadd.
      specialize (Hadd eq_refl). by apply negb_true_iff in Hadd.
Qed.

Lemma app_ok_local app loc' : app_ok app -> app_ok (mkApp (editor app) loc').
Proof. done. Qed.

Lemma on_selected_ok app (k : Z -> Action) :
  app_ok app ->
  (∀ i, has_layer (textLayers (editor app)) i -> admissible (editor app) (k i)) ->
  (∀ i, k i ≠ ADD_TEXT_LAYER) ->
  ∃ app', on_selected app k = Ok app' ∧ app_ok app'.
Proof.
  intros Hok Hadm Hk. pose proof Hok as [(ls & E & _) _].
  unfold on_selected, RightPanel.selectedLayer. rewrite E, find_layers, bind_Ok.
  destruct (List.find _ ls) as [found|] eqn:F; [|by exists app].
  apply find_some in F as [Hin _]. apply list_elem_of_In in Hin.
  assert (has_layer (textLayers (editor app)) (Layer.id found)) as Hhas.
  { rewrite E. apply has_layer_layers. unfold ids. apply list_elem_of_fmap. eauto. }
  unfold dispatch.
  destruct (editor_ok_preserved _ (k (Layer.id found)) (proj1 Hok) (Hadm _ Hhas))
    as (s & Es & _).
  rewrite Es, bind_Ok. eexists. split; [done|].
  eapply app_ok_reduced; [done|by apply Hadm| |done].
  intros H. by apply Hk in H.
Qed.

Lemma dispatch_ok app action :
  app_ok app ->
  admissible (editor app) action ->
  (action = ADD_TEXT_LAYER -> canvas_shown app = true) ->
  ∃ app', dispatch app action = Ok app' ∧ app_ok app'.
Proof.
  intros Hok Hadm Hadd. unfold dispatch.
  destruct (editor_ok_preserved _ action (proj1 Hok) Hadm) as (s & Es & _).
  rewrite Es, bind_Ok. eexists. split; [done|].
  by eapply app_ok_reduced.
Qed.

Lemma on_event_ok app ev :
  app_ok app -> ∃ app', on_event app ev = Ok app' ∧ app_ok app'.
Proof.
  intros Hok. pose proof Hok as [(ls & E & _) _].
  destruct ev as [url| | |rect e|rect e| | |rect e|value|value| |c| | |]; cbn [on_event].
  - by apply dispatch_ok.
  - by apply dispatch_ok.
  - destruct (canvas_shown app) eqn:S; [|by exists app]. by apply dispatch_ok.
  - destruct (canvas_shown app); [|by exists app].
    unfold handleMouseDown. rewrite E, hit_test_layers, bind_Ok.
    destruct (hit_spec ls _ _) as [layer|] eqn:H; [|by exists app].
    cbn [memeEditorReducer]. rewrite bind_Ok. eexists. split; [done|].
    eapply (app_ok_reduced app (SELECT_LAYER (Some (Layer.id layer)))); [done| |done|done].
    cbn. rewrite E. apply has_layer_layers. unfold ids. apply list_elem_of_fmap.
    eexists. split; [done|]. by eapply hit_spec_elem_of.
  - destruct (canvas_shown app); [|by exists app].
    unfold handleMouseMove. destruct (dragging (local app)) as [id|]; [|by exists app].
    destruct (id =? 0); [by exists app|]. by apply dispatch_ok.
  - destruct (canvas_shown app); [|by exists app]. eexists. split; [done|]. done.
  - destruct (canvas_shown app); [|by exists app]. eexists. split; [done|]. done.
  - destruct (canvas_shown app); [|by exists app].
    unfold handleDoubleClick. rewrite E, hit_test_layers, bind_Ok.
    destruct (hit_spec ls _ _) as [layer|]; [|by exists app].
    eexists. split; [done|]. done.
  - unfold on_modal. destruct (editingLayer (local app)) as [id|]; [|by exists app].
    destruct (id =? 0); [by exists app|]. unfold handleTextEdit.
    destruct (dispatch_ok app (UPDATE_TEXT_LAYER id (only_text value)) Hok)
      as (app' & -> & Hok'); [done|done|].
    rewrite bind_Ok. eexists. split; [done|]. done.
  - unfold on_modal. destruct (editingLayer (local app)) as [id|]; [|by exists app].
    destruct (id =? 0); [by exists app|]. unfold handleTextEdit.
    destruct (dispatch_ok app (UPDATE_TEXT_LAYER id (only_text value)) Hok)
      as (app' & -> & Hok'); [done|done|].
    rewrite bind_Ok. eexists. split; [done|]. done.
  - unfold on_modal. destruct (editingLayer (local app)) as [id|]; [|by exists app].
    destruct (id =? 0); [by exists app|]. eexists. split; [done|]. done.
  - apply on_selected_ok; [done| |done]. intros i _. apply control_updates_no_id.
  - by apply on_selected_ok.
  - by apply on_selected_ok.
  - by apply on_selected_ok.
Qed.

End UiInvariant.

Lemma run_events_ok (events : list Ui.Event) : ∀ app,
  Ui.app_ok app -> ∃ app', Ui.run_events app events = Ok app' ∧ Ui.app_ok app'.
Proof.
  induction events as [|ev rest IH]; intros app Hok; [by exists app|].
  destruct (on_event_ok app ev Hok) as (mid & E & Hmid).
  destruct (IH mid Hmid) as (app' & E' & Hok').
  exists app'. split; [|done]. cbn. by rewrite E.
Qed.

Lemma initial_app_ok loc : Ui.app_ok (Canvas.mkApp initialState loc).
Proof.
  split; [|done]. apply (editor_ok_layers None [] None 1).
  split_and!; [constructor|constructor|done|done].
Qed.

(** Driven through the elements of the interface alone, from the initial
    state, the application never throws, and after any sequence of
    events the editor is well formed (every slot a layer, ids distinct
    and between 1 and the counter, selection [null] or a present id) and
    has layers only over a base image. *)
Theorem interface_keeps_editor_ok (events : list Ui.Event) (loc : Canvas.Local) :
  ∃ app,
    Ui.run_events (Canvas.mkApp initialState loc) events = Ok app
    ∧ Ui.app_ok app
    ∧ None ∉ Arr.elems (textLayers (Canvas.editor app)).
Proof.
  destruct (run_events_ok events _ (initial_app_ok loc)) as (app & E & Hok).
  exists app. split_and!; [done|done|].
  destruct Hok as [(ls & -> & _) _]. cbn.
  intros (layer & [=] & _)%list_elem_of_fmap.
Qed.

(** After any sequence of interface events from the initial state: the
    text controls find their layer exactly when an id is selected (and
    it is the layer with that id); building the preview or the share
    request never throws; and as soon as there is a layer the request is
    sent, with the base image and one object per layer. *)
Theorem interface_panel_consistent (events : list Ui.Event) (loc : Canvas.Local) :
  ∃ app ls,
    Ui.run_events (Canvas.mkApp initialState loc) events = Ok app
    ∧ textLayers (Canvas.editor app) = Arr.of_layers ls
    ∧ match selectedLayerId (Canvas.editor app) with
      | Some i =>
          ∃ layer, RightPanel.selectedLayer (textLayers (Canvas.editor app)) (Some i)
                   = Ok (Some layer)
                   ∧ layer ∈ ls ∧ Layer.id layer = i
      | None => RightPanel.selectedLayer (textLayers (Canvas.editor app)) None = Ok None
      end
    ∧ Payload.generatePreview (baseImage (Canvas.editor app)) (textLayers (Canvas.editor app))
      ≠ Payload.Caught
    ∧ Payload.handleShare (baseImage (Canvas.editor app)) (textLayers (Canvas.editor app))
      ≠ Payload.Caught
    ∧ match ls with
      | [] => True
      | _ :: _ =>
          Payload.generatePreview (baseImage (Canvas.editor app))
            (textLayers (Canvas.editor app))
          = Payload.Call
              (Payload.mkMemeData (baseImage (Canvas.editor app))
                 (Payload.layer_fields <$> ls))
      end.
Proof.
  destruct (run_events_ok events _ (initial_app_ok loc)) as (app & E & Hok).
  destruct Hok as [Hed Hbase]. pose proof Hed as (ls & Hls & Hnd & _ & _ & Hsel).
  exists app, ls. rewrite Hls in *. split_and!; [done|done| | | |].
  - unfold RightPanel.selectedLayer.
    unfold selection_consistent in Hsel. rewrite Hls in Hsel.
    destruct (selectedLayerId (Canvas.editor app)) as [i|]; rewrite find_layers.
    + destruct Hsel as (layer & Hin & <-).
      apply list_elem_of_fmap in Hin as (l' & [= <-] & Hin).
      exists layer. by rewrite find_first_with_id.
    + f_equal. clear. by induction ls.
  - unfold Payload.generatePreview. cbn [Arr.elems Arr.of_layers Arr.of_list].
    rewrite (map_elems_layers Payload.layer_fields) by done.
    by destruct (Payload.falsy _).
  - unfold Payload.handleShare. cbn [Arr.elems Arr.of_layers Arr.of_list].
    rewrite (map_elems_layers Payload.layer_fields) by done.
    by destruct (Payload.falsy _).
  - destruct ls as [|l0 ls']; [done|].
    unfold Payload.generatePreview. cbn [Arr.elems Arr.of_layers Arr.of_list].
    rewrite (map_elems_layers Payload.layer_fields) by done.
    rewrite Hbase; [done|]. done.
Qed.

(** * Painting *)

Section Painting.

Import Render.

Lemma painted_app ctx (a b : list Cmd) :
  painted ctx (a ++ b)
  = (fst (painted ctx a) ++ fst (painted (snd (painted ctx a)) b),
     snd (painted (snd (painted ctx a)) b)).
Proof.
  revert ctx. induction a as [|c a IH]; intros ctx; cbn.
  - by destruct (painted ctx b).
  - rewrite IH. destruct (painted (exec ctx c) a) as [m1 c1]. cbn.
    destruct (painted c1 b) as [m2 c2]. cbn. by destruct (is_paint c).
Qed.

Lemma painted_layer sel layer ctx :
  painted ctx (fst (drawTextLayer sel (Some layer)))
  = (pair (fst ctx + Layer.rotation layer) <$> layer_paint sel layer, ctx).
Proof.
  destruct ctx as [angle stack]. unfold drawTextLayer, layer_paint. cbn.
  destruct (Layer.strokeWidth layer >? 0), (selected_is sel (Layer.id layer)); reflexivity.
Qed.

Lemma forEach_draw_cons sel layer (rest : list slot) :
  forEach_draw sel (Some layer :: rest)
  = (fst (drawTextLayer sel (Some layer)) ++ fst (forEach_draw sel rest),
     snd (forEach_draw sel rest)).
Proof. cbn. by destruct (forEach_draw sel rest). Qed.

Lemma forEach_draw_layers sel (ls : list Layer.t) :
  forEach_draw sel (Some <$> ls)
  = (concat ((fun layer => fst (drawTextLayer sel (Some layer))) <$> ls), Ok ()).
Proof.
  induction ls as [|layer ls IH]; [done|].
  cbn [fmap list_fmap]. by rewrite forEach_draw_cons, IH.
Qed.

Lemma painted_layers sel (ls : list Layer.t) ctx :
  painted ctx (concat ((fun layer => fst (drawTextLayer sel (Some layer))) <$> ls))
  = (concat ((fun layer => pair (fst ctx + Layer.rotation layer) <$> layer_paint sel layer)
               <$> ls),
     ctx).
Proof.
  induction ls as [|layer ls IH]; [done|].
  cbn [fmap list_fmap concat]. rewrite painted_app, painted_layer. cbn [fst snd].
  by rewrite IH.
Qed.

End Painting.

(** Painting the layers of an array whose slots all hold layers: the
    loop returns, and what it paints is, layer after layer in array
    order, the stroked text (only with a stroke width above 0), then the
    filled text, then the selection rectangle (only for the selected id),
    each of them issued with the layer's own rotation in force on top of
    the angle the context had, the selection rectangle included. The
    context ends with the angle and the stack of saved states it started
    with. *)
Theorem paint_layers_each_under_own_rotation sel (ls : list Layer.t) (ctx : Render.Ctx) :
  ∃ cmds,
    Render.paint_layers sel (Arr.of_layers ls) = (cmds, Ok ())
    ∧ Render.painted ctx cmds
      = (concat ((fun layer =>
                    pair (fst ctx + Layer.rotation layer) <$> Render.layer_paint sel layer)
                   <$> ls),
         ctx).
Proof.
  unfold Render.paint_layers. cbn [Arr.elems Arr.of_layers Arr.of_list].
  rewrite forEach_draw_layers. eexists. split; [done|]. apply painted_layers.
Qed.

(** Painting an array with an [undefined] slot: the loop throws at that
    slot, after saving the context and before restoring it. The layers
    below the slot are painted as usual, the layers above it are not
    painted at all, and the context is left with one saved state more
    than it had. *)
Theorem paint_layers_stops_at_undefined sel (below : list Layer.t) (above : list slot)
    props (ctx : Render.Ctx) :
  ∃ cmds,
    Render.paint_layers sel (Arr.mk ((Some <$> below) ++ None :: above) props)
    = (cmds, TypeError)
    ∧ Render.painted ctx cmds
      = (concat ((fun layer =>
                    pair (fst ctx + Layer.rotation layer) <$> Render.layer_paint sel layer)
                   <$> below),
         (fst ctx, fst ctx :: snd ctx)).
Proof.
  unfold Render.paint_layers. cbn [Arr.elems].
  exists (concat ((fun layer => fst (Render.drawTextLayer sel (Some layer))) <$> below)
            ++ [Render.Save]).
  split.
  - induction below as [|layer below IH]; [done|].
    cbn [fmap list_fmap app]. rewrite forEach_draw_cons, IH. cbn [fst snd concat].
    by rewrite <- app_assoc.
  - rewrite painted_app, painted_layers. cbn [fst snd]. destruct ctx as [angle stack].
    cbn. by rewrite app_nil_r.
Qed.

(** * Ids handed out in a row *)

(** [k] times [ADD_TEXT_LAYER] in a row, from any state of the data
    model with counter [n]: the layers before stay in place, [k] layers
    with the fixed defaults are appended in order with the ids [n],
    [n + 1], ..., [n + k - 1], the counter ends at [n + k], and the last
    layer added is the selected one (the selection is untouched for
    [k = 0]). *)
Theorem adds_assign_consecutive_ids (k : nat) : ∀ b (ls : list Layer.t) sel n,
  let added := (fun i : nat => newLayer (state_of b [] None (n + Z.of_nat i))) <$> seq 0 k in
  run (state_of b ls sel n) (replicate k ADD_TEXT_LAYER)
  = Ok (state_of b (ls ++ added)
          (match k with O => sel | S j => Some (n + Z.of_nat j) end)
          (n + Z.of_nat k))
  ∧ ids added = (fun i : nat => n + Z.of_nat i) <$> seq 0 k.
Proof.
  induction k as [|k IH]; intros b ls sel n added.
  - cbn. split; [|done]. unfold added. cbn. by rewrite app_nil_r, Z.add_0_r.
  - split.
    + cbn [replicate run].
      assert (memeEditorReducer (state_of b ls sel n) ADD_TEXT_LAYER
              = Ok (state_of b (ls ++ [newLayer (state_of b [] None n)]) (Some n) (n + 1)))
        as ->.
      { unfold memeEditorReducer, state_of, Arr.of_layers. cbn. by rewrite fmap_app. }
      rewrite bind_Ok.
      destruct (IH b (ls ++ [newLayer (state_of b [] None n)]) (Some n) (n + 1)) as [-> _].
      f_equal. unfold added.
      replace (n + 1 + Z.of_nat k) with (n + Z.of_nat (S k)) by lia.
      replace (match k with O => Some n | S j => Some (n + 1 + Z.of_nat j) end)
        with (Some (n + Z.of_nat k)).
      2:{ destruct k; f_equal; lia. }
      f_equal. rewrite <- app_assoc. f_equal. cbn [seq fmap list_fmap app].
      rewrite Z.add_0_r. f_equal. rewrite <- fmap_S_seq, <- list_fmap_compose.
      apply list_fmap_ext. intros _ i _. cbn. do 2 f_equal. lia.
    + unfold added, ids. rewrite <- list_fmap_compose. by apply list_fmap_ext.
Qed.

(** * A drag from press to release *)

(** During a drag (of a non-zero id) the position of the dragged layer
    depends on the last pointer position only: a move after another move
    gives the state the second move alone gives, the clamping at 0 of an
    earlier move leaving no trace. After the release a move changes
    nothing. *)
Theorem drag_follows_last_pointer b (ls : list Layer.t) sel n loc rect1 e1 rect2 e2 id :
  Canvas.dragging loc = Some id -> id ≠ 0 ->
  let app := Canvas.mkApp (state_of b ls sel n) loc in
  ∃ first second,
    Canvas.handleMouseMove rect1 e1 app = Ok first
    ∧ Canvas.handleMouseMove rect2 e2 first = Ok second
    ∧ Canvas.handleMouseMove rect2 e2 app = Ok second
    ∧ Canvas.handleMouseMove rect1 e1 (Canvas.handleMouseUp second)
      = Ok (Canvas.handleMouseUp second).
Proof.
  intros Hdrag Hid app.
  set (at_pointer := fun rect e (layer : Layer.t) =>
         if Layer.id layer =? id
         then Layer.spread layer
                (Canvas.position
                   (Z.max 0 (Canvas.clientX e - Canvas.left rect - fst (Canvas.dragStart loc)))
                   (Z.max 0 (Canvas.clientY e - Canvas.top rect - snd (Canvas.dragStart loc))))
         else layer).
  assert (∀ rect e ls', Canvas.handleMouseMove rect e (Canvas.mkApp (state_of b ls' sel n) loc)
                        = Ok (Canvas.mkApp (state_of b (at_pointer rect e <$> ls') sel n) loc))
    as Hmove.
  { intros rect e ls'. unfold Canvas.handleMouseMove. cbn [Canvas.local]. rewrite Hdrag.
    destruct (Z.eqb_spec id 0) as [|_]; [done|].
    unfold Canvas.dispatch. cbn [Canvas.editor Canvas.local].
    by rewrite reduce_update, bind_Ok. }
  exists (Canvas.mkApp (state_of b (at_pointer rect1 e1 <$> ls) sel n) loc),
         (Canvas.mkApp (state_of b (at_pointer rect2 e2 <$> ls) sel n) loc).
  split_and!; [apply Hmove| |apply Hmove|done].
  rewrite Hmove. do 3 f_equal. rewrite <- list_fmap_compose. apply list_fmap_ext.
  intros i layer _. unfold at_pointer. cbn.
  destruct (Z.eqb_spec (Layer.id layer) id) as [E|NE].
  - cbn. destruct (Z.eqb_spec (Layer.id layer) id); [reflexivity|done].
  - by destruct (Z.eqb_spec (Layer.id layer) id).
Qed.

Lemma drag_follows_last_pointer_witness :
  let app := Canvas.mkApp one_layer (Canvas.mkLocal (Some 1) None (10, 10) None) in
  ∃ first second,
    Canvas.handleMouseMove (Canvas.Build_DOMRect 0 0) (Canvas.Build_MouseEvent 2 3) app
    = Ok first
    ∧ Canvas.handleMouseMove (Canvas.Build_DOMRect 0 0) (Canvas.Build_MouseEvent 90 70) first
      = Ok second
    ∧ Canvas.handleMouseMove (Canvas.Build_DOMRect 0 0) (Canvas.Build_MouseEvent 90 70) app
      = Ok second.
Proof.
  destruct (drag_follows_last_pointer (Some "img1") [layer1] (Some 1) 2
              (Canvas.mkLocal (Some 1) None (10, 10) None)
              (Canvas.Build_DOMRect 0 0) (Canvas.Build_MouseEvent 2 3)
              (Canvas.Build_DOMRect 0 0) (Canvas.Build_MouseEvent 90 70) 1)
    as (first & second & H1 & H2 & H3 & _).
  - reflexivity.
  - lia.
  - exists first, second. split_and!; [exact H1|exact H2|exact H3].
Defined.
